(** * Alfred MCP adapter: client and tool handlers

    A shallow embedding of the TypeScript sources of the adapter
    ([client.ts], [tools/skills.ts], [tools/connections.ts],
    [tools/executions.ts], [tools/auth.ts], [types.ts]) and the properties
    of its HTTP client and tool handlers.

    Conventions of the embedding:
    - a JavaScript string is a [string] (its UTF-8 bytes);
    - a JavaScript number is an integer [Z] printed in plain decimal, which
      is what [String(n)] and [JSON.stringify(n)] give for integral values
      of magnitude below 10^21;
    - a value of a declared TypeScript interface is a record; a property
      declared [p?: T] is an [option T] ([None] is [undefined]), a property
      declared [p?: T | null] is a [maybe T];
    - opaque payloads ([any], [T] passed through verbatim) are [json];
    - [async] code runs in the monad [M], which threads the observable
      [World] (outbound calls, abort controller, timer) and ends in a
      returned value, a thrown error, or a promise that never settles. *)

From Stdlib Require Import String Ascii List ZArith Lia Bool.
From Stdlib Require Import Numbers.DecimalString.
Import ListNotations.
Open Scope string_scope.
Open Scope Z_scope.

Set Implicit Arguments.
Set Warnings "-register-all".

(** ** Strings *)

Definition nl : string := String (ascii_of_nat 10) "".
Definition dquote : string := String (ascii_of_nat 34) "".

(** [Array.prototype.join]. *)
Fixpoint join (sep : string) (parts : list string) : string :=
  match parts with
  | [] => ""
  | [p] => p
  | p :: rest => p ++ sep ++ join sep rest
  end.

(** [String(n)] for an integral number. *)
Definition String_number (n : Z) : string :=
  NilEmpty.string_of_int (Z.to_int n).

(** [String(b)] for a boolean. *)
Definition String_boolean (b : bool) : string :=
  if b then "true" else "false".

(** [s] occurs in [t]: [t.includes(s)]. *)
Definition includes (t s : string) : Prop :=
  exists pre post, t = pre ++ s ++ post.

(** Truthiness of a string: only the empty string is falsy. *)
Definition truthy_string (s : string) : bool :=
  negb (String.eqb s "").

(** Truthiness of a number: only zero is falsy (integral numbers). *)
Definition truthy_number (n : Z) : bool :=
  negb (n =? 0).

(** ** Optional and nullable properties *)

(** A property declared [p?: T | null]. *)
Inductive maybe (A : Type) : Type :=
| Undefined
| Null
| Defined (a : A).
Arguments Undefined {A}.
Arguments Null {A}.
Arguments Defined {A} a.

(** [x || d] where [x] is an optional string. *)
Definition or_string (x : option string) (d : string) : string :=
  match x with
  | Some s => if truthy_string s then s else d
  | None => d
  end.

(** ** JSON values *)

Inductive json : Type :=
| JNull
| JBool (b : bool)
| JNum (n : Z)
| JStr (s : string)
| JArr (items : list json)
| JObj (members : list (string * json)).

(** Truthiness of a JSON value; [undefined] is [None]. *)
Definition truthy (v : option json) : bool :=
  match v with
  | None => false
  | Some JNull => false
  | Some (JBool b) => b
  | Some (JNum n) => truthy_number n
  | Some (JStr s) => truthy_string s
  | Some (JArr _) => true
  | Some (JObj _) => true
  end.

(** An object literal whose property values may be [undefined].  The only
    consumer of such literals in the sources is [JSON.stringify], which
    leaves out the properties whose value is [undefined]. *)
Fixpoint object (props : list (string * option json)) : list (string * json) :=
  match props with
  | [] => []
  | (k, Some v) :: rest => (k, v) :: object rest
  | (_, None) :: rest => object rest
  end.

(** Own-property lookup in an object. *)
Fixpoint member (k : string) (o : list (string * json)) : option json :=
  match o with
  | [] => None
  | (k', v) :: rest => if String.eqb k k' then Some v else member k rest
  end.

Definition json_of_strings (l : list string) : json := JArr (map JStr l).

Definition json_of_maybe {A} (f : A -> json) (m : maybe A) : option json :=
  match m with
  | Undefined => None
  | Null => Some JNull
  | Defined a => Some (f a)
  end.

(** *** [JSON.stringify] *)

Definition hex_digit (n : nat) : ascii :=
  match n with
  | 0 => "0" | 1 => "1" | 2 => "2" | 3 => "3" | 4 => "4" | 5 => "5"
  | 6 => "6" | 7 => "7" | 8 => "8" | 9 => "9" | 10 => "a" | 11 => "b"
  | 12 => "c" | 13 => "d" | 14 => "e" | _ => "f"
  end%char%nat.

(** One character of a quoted JSON string (QuoteJSONString). *)
Definition quote_char (c : ascii) : string :=
  let n := nat_of_ascii c in
  if (n =? 34)%nat then "\" ++ dquote
  else if (n =? 92)%nat then "\\"
  else if (n =? 8)%nat then "\b"
  else if (n =? 12)%nat then "\f"
  else if (n =? 10)%nat then "\n"
  else if (n =? 13)%nat then "\r"
  else if (n =? 9)%nat then "\t"
  else if (n <? 32)%nat then
    "\u00" ++ String (hex_digit (n / 16)) (String (hex_digit (n mod 16)) "")
  else String c "".

Fixpoint quote_body (s : string) : string :=
  match s with
  | EmptyString => ""
  | String c rest => quote_char c ++ quote_body rest
  end.

Definition quote (s : string) : string :=
  dquote ++ quote_body s ++ dquote.

(** [JSON.stringify(v)]: the compact form. *)
Fixpoint JSON_stringify (v : json) : string :=
  match v with
  | JNull => "null"
  | JBool b => String_boolean b
  | JNum n => String_number n
  | JStr s => quote s
  | JArr items => "[" ++ join "," (map JSON_stringify items) ++ "]"
  | JObj members =>
      "{" ++ join "," (map (fun kv => quote (fst kv) ++ ":" ++ JSON_stringify (snd kv)) members) ++ "}"
  end.

(** [JSON.stringify(v, null, 2)]: the indented form, [ind] being the
    indentation already in force. *)
Fixpoint JSON_stringify_indent (ind : string) (v : json) : string :=
  match v with
  | JNull => "null"
  | JBool b => String_boolean b
  | JNum n => String_number n
  | JStr s => quote s
  | JArr [] => "[]"
  | JArr items =>
      let ind' := ind ++ "  " in
      "[" ++ nl ++ ind'
          ++ join ("," ++ nl ++ ind') (map (JSON_stringify_indent ind') items)
          ++ nl ++ ind ++ "]"
  | JObj [] => "{}"
  | JObj members =>
      let ind' := ind ++ "  " in
      "{" ++ nl ++ ind'
          ++ join ("," ++ nl ++ ind')
               (map (fun kv => quote (fst kv) ++ ": " ++ JSON_stringify_indent ind' (snd kv)) members)
          ++ nl ++ ind ++ "}"
  end.

Definition JSON_stringify_2 (v : json) : string := JSON_stringify_indent "" v.


(** ** Errors and asynchronous computations *)

(** A JavaScript [Error] object: its [name] and its [message]. *)
Record JsError : Type := mkError { ename : string; emessage : string }.

(** [new Error(msg)]. *)
Definition Error (msg : string) : JsError := mkError "Error" msg.
(** The rejection of a fetch whose signal was aborted. *)
Definition AbortError : JsError := mkError "AbortError" "The user aborted a request.".
(** What [JSON.parse] throws on a body that is not JSON. *)
Definition SyntaxError (msg : string) : JsError := mkError "SyntaxError" msg.
(** What a property read on [undefined] throws. *)
Definition TypeError_undefined (prop : string) : JsError :=
  mkError "TypeError" ("Cannot read properties of undefined (reading '" ++ prop ++ "')").

(** How an awaited computation ends. *)
Inductive Result (A : Type) : Type :=
| Return (a : A)
| Throw (e : JsError)
| Pending.
Arguments Return {A} a.
Arguments Throw {A} e.
Arguments Pending {A}.

(** One outbound HTTP call as handed to [fetch]. *)
Record HttpRequest : Type := mkRequest {
  url : string;
  method : string;
  headers : list (string * string);
  body : option string;
  signal : bool  (* [signal: controller.signal] is passed *)
}.

(** What a handler or the client can observe and change outside itself. *)
Record World : Type := mkWorld {
  calls : list HttpRequest;      (* every call handed to fetch, oldest first *)
  in_flight : list HttpRequest;  (* calls not yet settled *)
  cancelled : list HttpRequest;  (* calls cancelled through their signal *)
  timer : option Z;              (* the armed timeout, in milliseconds *)
  aborted : bool                 (* [controller.signal.aborted] *)
}.

Definition idle : World := mkWorld [] [] [] None false.

Definition M (A : Type) : Type := World -> World * Result A.

Definition ret {A} (a : A) : M A := fun w => (w, Return a).
Definition throw {A} (e : JsError) : M A := fun w => (w, Throw e).

Definition bind {A B} (c : M A) (k : A -> M B) : M B :=
  fun w =>
    match c w with
    | (w', Return a) => k a w'
    | (w', Throw e) => (w', Throw e)
    | (w', Pending) => (w', Pending)
    end.

(** [try { c } catch (error) { h error }]. *)
Definition try_catch {A} (c : M A) (h : JsError -> M A) : M A :=
  fun w =>
    match c w with
    | (w', Throw e) => h e w'
    | r => r
    end.

Notation "x <- c ;; k" := (bind c (fun x => k))
  (at level 61, c at next level, right associativity).
Notation "c ;;; k" := (bind c (fun _ => k))
  (at level 61, right associativity).

(** ** [types.ts]: the response envelope *)

(** [AlfredApiResponse<T>].  The pagination metadata [meta] is kept as the
    JSON value that was received: the skills and connections tools hand it
    on as it is, and the executions tool reads single properties of it. *)
Record AlfredApiResponse (T : Type) : Type := mkEnvelope {
  success : bool;
  data : option T;
  error : option string;
  message : option string;
  meta : option json
}.

(** ** The HTTP layer ([node-fetch]) *)

(** What [response.json()] settles to: the body parsed as an envelope, or
    the parser's error when the body is not JSON.  A body that parses is
    taken to have the declared shape [AlfredApiResponse<T>], as the cast in
    [request] does. *)
Inductive JsonBody (T : Type) : Type :=
| NotJson (why : string)
| Json (envelope : AlfredApiResponse T).
Arguments NotJson {T} why.
Arguments Json {T} envelope.

Record Response (T : Type) : Type := mkResponse {
  status : Z;
  statusText : string;
  json_body : JsonBody T
}.

(** [response.ok]: the status is in the range 200-299. *)
Definition ok {T} (r : Response T) : bool :=
  (200 <=? status r) && (status r <=? 299).

(** What the network does with one call.  The first three behaviours say
    nothing of time; the last two give the time, in milliseconds after
    the call, at which the response or the failure arrives, and it is the
    timer armed at that moment that decides whether it is still awaited. *)
Inductive FetchOutcome (T : Type) : Type :=
| Responds (r : Response T)   (* a response arrives before the armed timer fires *)
| Fails (e : JsError)         (* the connection fails before the armed timer fires *)
| Silent                      (* neither ever happens *)
| RespondsAfter (ms : Z) (r : Response T)  (* a response arrives [ms] ms after the call *)
| FailsAfter (ms : Z) (e : JsError).       (* the connection fails [ms] ms after the call *)
Arguments Responds {T} r.
Arguments Fails {T} e.
Arguments Silent {T}.
Arguments RespondsAfter {T} ms r.
Arguments FailsAfter {T} ms e.

(** The delay after which a timer set with [setTimeout(f, ms)] fires: [ms]
    itself, or one millisecond when [ms] is below 1 or above 2147483647
    (the timers of Node.js). *)
Definition timer_delay (ms : Z) : Z :=
  if (1 <=? ms) && (ms <=? 2147483647) then ms else 1.

(** Whether what arrives [ms] milliseconds after the call is still awaited
    in the world [w]: it is, unless a timer is armed that fires before. *)
Definition awaited (armed : option Z) (ms : Z) : bool :=
  match armed with
  | Some delay => ms <=? timer_delay delay
  | None => true
  end.

(** [new AbortController()]. *)
Definition new_AbortController : M unit :=
  fun w => (mkWorld (calls w) (in_flight w) (cancelled w) (timer w) false, Return tt).

(** [setTimeout(() => controller.abort(), ms)]. *)
Definition setTimeout_abort (ms : Z) : M unit :=
  fun w => (mkWorld (calls w) (in_flight w) (cancelled w) (Some ms) (aborted w), Return tt).

(** [clearTimeout(timeoutId)]. *)
Definition clearTimeout : M unit :=
  fun w => (mkWorld (calls w) (in_flight w) (cancelled w) None (aborted w), Return tt).

(** [fetch(url, init)] under the network behaviour [net].  A call that gets
    its response or its failure is settled.  When nothing arrives before
    the armed timer fires, its callback aborts the controller: a call that
    was given the controller's signal is cancelled and rejects with
    [AbortError]; a call without the signal, or with no timer armed, stays
    in flight and its promise never settles.  A response or a failure that
    arrives after a given time is received when it is still awaited;
    otherwise the timer has fired before it. *)
Definition fetch {T} (net : FetchOutcome T) (req : HttpRequest) : M (Response T) :=
  fun w =>
    let sent := (calls w ++ [req])%list in
    let received (r : Result (Response T)) :=
      (mkWorld sent (in_flight w) (cancelled w) (timer w) (aborted w), r) in
    let timer_fires :=
      match timer w with
      | Some _ =>
          if signal req
          then (mkWorld sent (in_flight w) (cancelled w ++ [req])%list None true, Throw AbortError)
          else (mkWorld sent (in_flight w ++ [req])%list (cancelled w) None true, Pending)
      | None => (mkWorld sent (in_flight w ++ [req])%list (cancelled w) None (aborted w), Pending)
      end in
    match net with
    | Responds r => received (Return r)
    | Fails e => received (Throw e)
    | Silent => timer_fires
    | RespondsAfter ms r => if awaited (timer w) ms then received (Return r) else timer_fires
    | FailsAfter ms e => if awaited (timer w) ms then received (Throw e) else timer_fires
    end.

(** [await response.json()]. *)
Definition response_json {T} (r : Response T) : M (AlfredApiResponse T) :=
  match json_body r with
  | Json envelope => ret envelope
  | NotJson why => throw (SyntaxError why)
  end.

(** ** [client.ts]: [AlfredClient] *)

Record AlfredClientConfig : Type := mkConfig {
  apiKey : string;
  baseUrl : string;
  timeout : Z
}.

(** The fallback message of a failed call. *)
Definition http_status_message {T} (r : Response T) : string :=
  "HTTP " ++ String_number (status r) ++ ": " ++ statusText r.

(** The call that [request] hands to [fetch]: the URL is the base URL
    followed by the path, both headers are always set, and the body is the
    JSON text of [body] when [body] is truthy. *)
Definition outbound (config : AlfredClientConfig) (method path : string)
    (body : option json) : HttpRequest :=
  let url := baseUrl config ++ path in
  mkRequest url method
    [("X-API-Key", apiKey config); ("Content-Type", "application/json")]
    (match body with
     | Some b => if truthy body then Some (JSON_stringify b) else None
     | None => None
     end)
    true.

(** [AlfredClient.request]. *)
Definition request {T} (config : AlfredClientConfig) (net : FetchOutcome T)
    (method path : string) (body : option json) : M (AlfredApiResponse T) :=
  try_catch
    (new_AbortController ;;;
     setTimeout_abort (timeout config) ;;;
     response <- fetch net (outbound config method path body) ;;
     clearTimeout ;;;
     data <- response_json response ;;
     if negb (ok response)
     then throw (Error (or_string (error data)
                          (or_string (message data) (http_status_message response))))
     else ret data)
    (fun error =>
       if String.eqb (ename error) "AbortError"
       then throw (Error ("Request timeout after " ++ String_number (timeout config) ++ "ms"))
       else throw error).

(** *** Query strings *)

(** A filter value: [boolean], [number] or [string]. *)
Inductive prim : Type :=
| PBool (b : bool)
| PNum (n : Z)
| PStr (s : string).

(** [String(value)]. *)
Definition String_ (v : prim) : string :=
  match v with
  | PBool b => String_boolean b
  | PNum n => String_number n
  | PStr s => s
  end.

(** A filter object as [Object.entries] enumerates it: its own properties
    in insertion order, [None] for a property whose value is [undefined]. *)
Definition Params : Type := list (string * option prim).

(** [URLSearchParams]: the appended name-value pairs, in order. *)
Definition URLSearchParams : Type := list (string * string).

Definition append (query : URLSearchParams) (key value : string) : URLSearchParams :=
  (query ++ [(key, value)])%list.

Definition HEX_digit (n : nat) : ascii :=
  match n with
  | 0 => "0" | 1 => "1" | 2 => "2" | 3 => "3" | 4 => "4" | 5 => "5"
  | 6 => "6" | 7 => "7" | 8 => "8" | 9 => "9" | 10 => "A" | 11 => "B"
  | 12 => "C" | 13 => "D" | 14 => "E" | _ => "F"
  end%char%nat.

(** Bytes that the [application/x-www-form-urlencoded] serializer leaves
    as they are: ASCII letters and digits and [*], [-], [.], [_]. *)
Definition urlencoded_safe (c : ascii) : bool :=
  let n := nat_of_ascii c in
  ((48 <=? n) && (n <=? 57) || (65 <=? n) && (n <=? 90) || (97 <=? n) && (n <=? 122)
   || (n =? 42) || (n =? 45) || (n =? 46) || (n =? 95))%nat.

Definition urlencode_byte (c : ascii) : string :=
  let n := nat_of_ascii c in
  if urlencoded_safe c then String c ""
  else if (n =? 32)%nat then "+"
  else String "%" (String (HEX_digit (n / 16)) (String (HEX_digit (n mod 16)) "")).

Fixpoint urlencode (s : string) : string :=
  match s with
  | EmptyString => ""
  | String c rest => urlencode_byte c ++ urlencode rest
  end.

(** [query.toString()]. *)
Definition toString (query : URLSearchParams) : string :=
  join "&" (map (fun kv => urlencode (fst kv) ++ "=" ++ urlencode (snd kv)) query).

(** The loop shared by the list-style methods:
    [Object.entries(params).forEach(([key, value]) =>
       { if (value !== undefined) query.append(key, String(value)) })],
    run only when [params] is given. *)
Definition build_query (params : option Params) : URLSearchParams :=
  match params with
  | Some entries =>
      fold_left
        (fun query kv =>
           match snd kv with
           | Some value => append query (fst kv) (String_ value)
           | None => query
           end)
        entries []
  | None => []
  end.

(** [`${path}${queryString ? `?${queryString}` : ""}`]. *)
Definition with_query (path : string) (params : option Params) : string :=
  let queryString := toString (build_query params) in
  path ++ (if truthy_string queryString then "?" ++ queryString else "").

(** *** Skills *)

Definition listSkills {T} (config : AlfredClientConfig) (net : FetchOutcome T)
    (params : option Params) : M (AlfredApiResponse T) :=
  request config net "GET" (with_query "/skills" params) None.

Definition getSkill {T} (config : AlfredClientConfig) (net : FetchOutcome T)
    (id : string) : M (AlfredApiResponse T) :=
  request config net "GET" ("/skills/" ++ id) None.

Definition createSkill {T} (config : AlfredClientConfig) (net : FetchOutcome T)
    (data_ : json) : M (AlfredApiResponse T) :=
  request config net "POST" "/skills" (Some data_).

Definition updateSkill {T} (config : AlfredClientConfig) (net : FetchOutcome T)
    (id : string) (data_ : json) : M (AlfredApiResponse T) :=
  request config net "PUT" ("/skills/" ++ id) (Some data_).

Definition patchSkill {T} (config : AlfredClientConfig) (net : FetchOutcome T)
    (id : string) (data_ : json) : M (AlfredApiResponse T) :=
  request config net "PATCH" ("/skills/" ++ id) (Some data_).

Definition deleteSkill {T} (config : AlfredClientConfig) (net : FetchOutcome T)
    (id : string) (force : option bool) : M (AlfredApiResponse T) :=
  let query := match force with Some true => "?force=true" | _ => "" end in
  request config net "DELETE" ("/skills/" ++ id ++ query) None.

(** *** Connections *)

Definition listConnections {T} (config : AlfredClientConfig) (net : FetchOutcome T)
    (params : option Params) : M (AlfredApiResponse T) :=
  request config net "GET" (with_query "/connections" params) None.

Definition getConnection {T} (config : AlfredClientConfig) (net : FetchOutcome T)
    (id : string) : M (AlfredApiResponse T) :=
  request config net "GET" ("/connections/" ++ id) None.

Definition createConnection {T} (config : AlfredClientConfig) (net : FetchOutcome T)
    (data_ : json) : M (AlfredApiResponse T) :=
  request config net "POST" "/connections" (Some data_).

Definition updateConnection {T} (config : AlfredClientConfig) (net : FetchOutcome T)
    (id : string) (data_ : json) : M (AlfredApiResponse T) :=
  request config net "PUT" ("/connections/" ++ id) (Some data_).

Definition patchConnection {T} (config : AlfredClientConfig) (net : FetchOutcome T)
    (id : string) (data_ : json) : M (AlfredApiResponse T) :=
  request config net "PATCH" ("/connections/" ++ id) (Some data_).

Definition deleteConnection {T} (config : AlfredClientConfig) (net : FetchOutcome T)
    (id : string) : M (AlfredApiResponse T) :=
  request config net "DELETE" ("/connections/" ++ id) None.

(** *** Executions *)

Definition listExecutions {T} (config : AlfredClientConfig) (net : FetchOutcome T)
    (params : option Params) : M (AlfredApiResponse T) :=
  request config net "GET" (with_query "/executions" params) None.

Definition getExecution {T} (config : AlfredClientConfig) (net : FetchOutcome T)
    (id : string) : M (AlfredApiResponse T) :=
  request config net "GET" ("/executions/" ++ id) None.

Definition getExecutionTrace {T} (config : AlfredClientConfig) (net : FetchOutcome T)
    (id : string) : M (AlfredApiResponse T) :=
  request config net "GET" ("/executions/" ++ id ++ "/trace") None.

Definition getExecutionStats {T} (config : AlfredClientConfig) (net : FetchOutcome T)
    (params : option Params) : M (AlfredApiResponse T) :=
  request config net "GET" (with_query "/executions/stats" params) None.

Definition deleteExecution {T} (config : AlfredClientConfig) (net : FetchOutcome T)
    (id : string) : M (AlfredApiResponse T) :=
  request config net "DELETE" ("/executions/" ++ id) None.

(** *** API keys *)

Definition createApiKey {T} (config : AlfredClientConfig) (net : FetchOutcome T)
    (data_ : json) : M (AlfredApiResponse T) :=
  request config net "POST" "/auth/keys" (Some data_).

Definition listApiKeys {T} (config : AlfredClientConfig) (net : FetchOutcome T)
    : M (AlfredApiResponse T) :=
  request config net "GET" "/auth/keys" None.

Definition deleteApiKey {T} (config : AlfredClientConfig) (net : FetchOutcome T)
    (id : string) : M (AlfredApiResponse T) :=
  request config net "DELETE" ("/auth/keys/" ++ id) None.

(** ** Tool results *)

Record TextContent : Type := mkContent { type_ : string; text : string }.

(** What a handler returns to the host: [{ content: [...], isError? }]. *)
Record ToolResult : Type := mkToolResult {
  content : list TextContent;
  isError : option bool
}.

(** [{ content: [{ type: "text", text }] }]. *)
Definition text_result (t : string) : ToolResult :=
  mkToolResult [mkContent "text" t] None.

(** [{ content: [{ type: "text", text }], isError: true }]. *)
Definition error_result (t : string) : ToolResult :=
  mkToolResult [mkContent "text" t] (Some true).

(** The text of the first content item. *)
Definition result_text (r : ToolResult) : string :=
  match content r with
  | c :: _ => text c
  | [] => ""
  end.

(** [JSON.stringify({ error: msg, success: false })]. *)
Definition failure_payload (msg : string) : json :=
  JObj (object [("error", Some (JStr msg)); ("success", Some (JBool false))]).

(** Property assignment [o[k] = v] on an object. *)
Fixpoint set_property (o : list (string * json)) (k : string) (v : json)
    : list (string * json) :=
  match o with
  | [] => [(k, v)]
  | (k', v') :: rest =>
      if String.eqb k k' then (k, v) :: rest else (k', v') :: set_property rest k v
  end.

(** [if (x !== undefined) o[k] = x]. *)
Definition assign_if_defined (o : list (string * json)) (k : string) (x : option json)
    : list (string * json) :=
  match x with
  | Some v => set_property o k v
  | None => o
  end.

(** [x || undefined]. *)
Definition or_undefined (x : option json) : option json :=
  if truthy x then x else None.

(** [x || d] on numbers. *)
Definition or_number (x d : Z) : Z := if truthy_number x then x else d.

(** [response.data || []]. *)
Definition data_or_empty (d : option json) : json :=
  match d with
  | Some v => if truthy d then v else JArr []
  | None => JArr []
  end.

(** ** Input schemas (zod) *)

(** [.default(d)]: an omitted value becomes [d]. *)
Definition zod_default {A} (d : A) (x : option A) : A :=
  match x with
  | Some v => v
  | None => d
  end.

(** A check on an optional value holds when the value is omitted. *)
Definition zod_optional {A} (check : A -> bool) (x : option A) : bool :=
  match x with
  | Some v => check v
  | None => true
  end.

(** [z.enum([...])]. *)
Definition zod_enum (allowed : list string) (s : string) : bool :=
  existsb (String.eqb s) allowed.

Definition trigger_types : list string := ["manual"; "scheduled"; "webhook"].
Definition sort_orders : list string := ["asc"; "desc"].
Definition execution_statuses : list string := ["running"; "completed"; "failed"].

(** ** [tools/skills.ts] *)

(** [SkillStepSchema]. *)
Module SkillStep.
Record t : Type := mk {
    id : Z;
    prompt : string;
    guidance : string;
    allowedTools : list string;
    connectionNames : option (list string)
  }.
Definition to_json (s : t) : json :=
    JObj (object
      [("id", Some (JNum (id s)));
       ("prompt", Some (JStr (prompt s)));
       ("guidance", Some (JStr (guidance s)));
       ("allowedTools", Some (json_of_strings (allowedTools s)));
       ("connectionNames", option_map json_of_strings (connectionNames s))]).
End SkillStep.

Definition json_of_steps (steps : list SkillStep.t) : json :=
  JArr (map SkillStep.to_json steps).

(** [ListSkillsInputSchema]: what the caller sends, and what the schema
    turns it into. *)
Module ListSkillsInput.
Record raw : Type := mkRaw {
    raw_isActive : option bool;
    raw_triggerType : option string;
    raw_isSystem : option bool;
    raw_limit : option Z;
    raw_offset : option Z;
    raw_sortBy : option string;
    raw_sortOrder : option string
  }.
Record t : Type := mk {
    isActive : option bool;
    triggerType : option string;
    isSystem : option bool;
    limit : Z;
    offset : Z;
    sortBy : option string;
    sortOrder : option string
  }.
Definition parse (r : raw) : option t :=
    if zod_optional (zod_enum trigger_types) (raw_triggerType r)
       && zod_optional (fun n => 0 <? n) (raw_limit r)
       && zod_optional (fun n => 0 <=? n) (raw_offset r)
       && zod_optional (zod_enum sort_orders) (raw_sortOrder r)
    then Some (mk (raw_isActive r) (raw_triggerType r) (raw_isSystem r)
                 (zod_default 50 (raw_limit r)) (zod_default 0 (raw_offset r))
                 (raw_sortBy r) (raw_sortOrder r))
    else None.
End ListSkillsInput.

(** [CreateSkillInputSchema], after its default for [isActive]. *)
Module CreateSkillInput.
Record t : Type := mk {
    name : string;
    description : option string;
    triggerType : string;
    steps : list SkillStep.t;
    connectionNames : option (list string);
    isActive : bool
  }.
End CreateSkillInput.

(** The input of [alfred_update_skill]: [skillId] and the creation shape. *)
Module UpdateSkillInput.
Record t : Type := mk {
    skillId : string;
    fields : CreateSkillInput.t
  }.
End UpdateSkillInput.

(** The input of [alfred_patch_skill]: every field but [skillId] optional. *)
Module PatchSkillInput.
Record t : Type := mk {
    skillId : string;
    name : option string;
    description : option string;
    triggerType : option string;
    steps : option (list SkillStep.t);
    connectionNames : option (list string);
    isActive : option bool
  }.
End PatchSkillInput.

Module DeleteSkillInput.
Record t : Type := mk {
    skillId : string;
    force : option bool
  }.
End DeleteSkillInput.

(** The handlers' [catch]: every value thrown in this model is an [Error]
    object, so [error instanceof Error] holds and the message is
    [error.message]. *)
Definition caught_failure (what : string) (e : JsError) : M ToolResult :=
  let message := emessage e in
  ret (text_result (JSON_stringify (failure_payload (what ++ ": " ++ message)))).

(** The [if (!response.success)] branch of the skills and connections
    handlers. *)
Definition envelope_failure {T} (response : AlfredApiResponse T) (fallback : string)
    : ToolResult :=
  text_result (JSON_stringify (failure_payload (or_string (error response) fallback))).

Definition list_skills_params (input : ListSkillsInput.t) : Params :=
  [("isActive", option_map PBool (ListSkillsInput.isActive input));
   ("triggerType", option_map PStr (ListSkillsInput.triggerType input));
   ("isSystem", option_map PBool (ListSkillsInput.isSystem input));
   ("limit", Some (PNum (or_number (ListSkillsInput.limit input) 50)));
   ("offset", Some (PNum (or_number (ListSkillsInput.offset input) 0)));
   ("sortBy", option_map PStr (ListSkillsInput.sortBy input));
   ("sortOrder", option_map PStr (ListSkillsInput.sortOrder input))].

Definition alfred_list_skills (config : AlfredClientConfig) (net : FetchOutcome json)
    (input : ListSkillsInput.t) : M ToolResult :=
  try_catch
    (response <- listSkills config net (Some (list_skills_params input)) ;;
     if negb (success response)
     then ret (envelope_failure response "Failed to list skills")
     else ret (text_result (JSON_stringify (JObj (object
            [("success", Some (JBool true));
             ("skills", Some (data_or_empty (data response)));
             ("pagination", or_undefined (meta response))])))))
    (caught_failure "Failed to list skills").

Definition alfred_get_skill (config : AlfredClientConfig) (net : FetchOutcome json)
    (skillId : string) : M ToolResult :=
  try_catch
    (response <- getSkill config net skillId ;;
     if negb (success response)
     then ret (envelope_failure response "Skill not found")
     else ret (text_result (JSON_stringify (JObj (object
            [("success", Some (JBool true));
             ("skill", data response)])))))
    (caught_failure "Failed to retrieve skill").

(** [skillData] of the create and update handlers.  [input.isActive] is a
    boolean once the schema's default is applied, so
    [input.isActive !== false] is [input.isActive]; an array is truthy, so
    [input.connectionNames || []] is the empty array only when the field
    was left out. *)
Definition skillData (input : CreateSkillInput.t) : json :=
  JObj (object
    [("name", Some (JStr (CreateSkillInput.name input)));
     ("description", option_map JStr (CreateSkillInput.description input));
     ("triggerType", Some (JStr (CreateSkillInput.triggerType input)));
     ("steps", Some (json_of_steps (CreateSkillInput.steps input)));
     ("connectionNames",
        Some (json_of_strings (zod_default [] (CreateSkillInput.connectionNames input))));
     ("isActive", Some (JBool (CreateSkillInput.isActive input)))]).

Definition alfred_create_skill (config : AlfredClientConfig) (net : FetchOutcome json)
    (input : CreateSkillInput.t) : M ToolResult :=
  try_catch
    (response <- createSkill config net (skillData input) ;;
     if negb (success response)
     then ret (envelope_failure response "Failed to create skill")
     else ret (text_result (JSON_stringify (JObj (object
            [("success", Some (JBool true));
             ("skill", data response);
             ("message", Some (JStr ("Skill " ++ dquote ++ CreateSkillInput.name input
                                       ++ dquote ++ " created successfully")))])))))
    (caught_failure "Failed to create skill").

Definition alfred_update_skill (config : AlfredClientConfig) (net : FetchOutcome json)
    (input : UpdateSkillInput.t) : M ToolResult :=
  try_catch
    (response <- updateSkill config net (UpdateSkillInput.skillId input)
                   (skillData (UpdateSkillInput.fields input)) ;;
     if negb (success response)
     then ret (envelope_failure response "Failed to update skill")
     else ret (text_result (JSON_stringify (JObj (object
            [("success", Some (JBool true));
             ("skill", data response);
             ("message", Some (JStr "Skill updated successfully"))])))))
    (caught_failure "Failed to update skill").

(** [updateFields] of [alfred_patch_skill]: starts empty and receives each
    field that is not [undefined]. *)
Definition patch_skill_updateFields (input : PatchSkillInput.t) : list (string * json) :=
  let updateFields := [] in
  let updateFields := assign_if_defined updateFields "name"
        (option_map JStr (PatchSkillInput.name input)) in
  let updateFields := assign_if_defined updateFields "description"
        (option_map JStr (PatchSkillInput.description input)) in
  let updateFields := assign_if_defined updateFields "triggerType"
        (option_map JStr (PatchSkillInput.triggerType input)) in
  let updateFields := assign_if_defined updateFields "steps"
        (option_map json_of_steps (PatchSkillInput.steps input)) in
  let updateFields := assign_if_defined updateFields "connectionNames"
        (option_map json_of_strings (PatchSkillInput.connectionNames input)) in
  let updateFields := assign_if_defined updateFields "isActive"
        (option_map JBool (PatchSkillInput.isActive input)) in
  updateFields.

Definition alfred_patch_skill (config : AlfredClientConfig) (net : FetchOutcome json)
    (input : PatchSkillInput.t) : M ToolResult :=
  try_catch
    (response <- patchSkill config net (PatchSkillInput.skillId input)
                   (JObj (patch_skill_updateFields input)) ;;
     if negb (success response)
     then ret (envelope_failure response "Failed to patch skill")
     else ret (text_result (JSON_stringify (JObj (object
            [("success", Some (JBool true));
             ("skill", data response);
             ("message", Some (JStr "Skill patched successfully"))])))))
    (caught_failure "Failed to patch skill").

Definition alfred_delete_skill (config : AlfredClientConfig) (net : FetchOutcome json)
    (input : DeleteSkillInput.t) : M ToolResult :=
  try_catch
    (response <- deleteSkill config net (DeleteSkillInput.skillId input)
                   (DeleteSkillInput.force input) ;;
     if negb (success response)
     then ret (envelope_failure response "Failed to delete skill")
     else ret (text_result (JSON_stringify (JObj (object
            [("success", Some (JBool true));
             ("message", Some (JStr "Skill deleted successfully"));
             ("deletedSkill", data response)])))))
    (caught_failure "Failed to delete skill").

(** ** [tools/connections.ts] *)

(** [ListConnectionsInputSchema]. *)
Module ListConnectionsInput.
Record raw : Type := mkRaw {
    raw_isActive : option bool;
    raw_type : option string;
    raw_source : option string;
    raw_authStatus : option string;
    raw_limit : option Z;
    raw_offset : option Z;
    raw_sortBy : option string;
    raw_sortOrder : option string
  }.
Record t : Type := mk {
    isActive : option bool;
    type_ : option string;
    source : option string;
    authStatus : option string;
    limit : Z;
    offset : Z;
    sortBy : option string;
    sortOrder : option string
  }.
Definition parse (r : raw) : option t :=
    if zod_optional (fun n => 0 <? n) (raw_limit r)
       && zod_optional (fun n => 0 <=? n) (raw_offset r)
       && zod_optional (zod_enum sort_orders) (raw_sortOrder r)
    then Some (mk (raw_isActive r) (raw_type r) (raw_source r) (raw_authStatus r)
                 (zod_default 50 (raw_limit r)) (zod_default 0 (raw_offset r))
                 (raw_sortBy r) (raw_sortOrder r))
    else None.
End ListConnectionsInput.

(** [CreateConnectionInputSchema], after its default for [isActive]; the
    [config] record is opaque. *)
Module CreateConnectionInput.
Record t : Type := mk {
    name : string;
    type_ : string;
    config : json;
    isActive : bool
  }.
End CreateConnectionInput.

Module UpdateConnectionInput.
Record t : Type := mk {
    connectionId : string;
    fields : CreateConnectionInput.t
  }.
End UpdateConnectionInput.

(** The input of [alfred_patch_connection]. *)
Module PatchConnectionInput.
Record t : Type := mk {
    connectionId : string;
    name : option string;
    type_ : option string;
    config : option json;
    isActive : option bool
  }.
End PatchConnectionInput.

Definition list_connections_params (input : ListConnectionsInput.t) : Params :=
  [("isActive", option_map PBool (ListConnectionsInput.isActive input));
   ("type", option_map PStr (ListConnectionsInput.type_ input));
   ("source", option_map PStr (ListConnectionsInput.source input));
   ("authStatus", option_map PStr (ListConnectionsInput.authStatus input));
   ("limit", Some (PNum (or_number (ListConnectionsInput.limit input) 50)));
   ("offset", Some (PNum (or_number (ListConnectionsInput.offset input) 0)));
   ("sortBy", option_map PStr (ListConnectionsInput.sortBy input));
   ("sortOrder", option_map PStr (ListConnectionsInput.sortOrder input))].

Definition alfred_list_connections (config : AlfredClientConfig) (net : FetchOutcome json)
    (input : ListConnectionsInput.t) : M ToolResult :=
  try_catch
    (response <- listConnections config net (Some (list_connections_params input)) ;;
     if negb (success response)
     then ret (envelope_failure response "Failed to list connections")
     else ret (text_result (JSON_stringify (JObj (object
            [("success", Some (JBool true));
             ("connections", Some (data_or_empty (data response)));
             ("pagination", or_undefined (meta response))])))))
    (caught_failure "Failed to list connections").

Definition alfred_get_connection (config : AlfredClientConfig) (net : FetchOutcome json)
    (connectionId : string) : M ToolResult :=
  try_catch
    (response <- getConnection config net connectionId ;;
     if negb (success response)
     then ret (envelope_failure response "Connection not found")
     else ret (text_result (JSON_stringify (JObj (object
            [("success", Some (JBool true));
             ("connection", data response)])))))
    (caught_failure "Failed to retrieve connection").

(** [connectionData] of the create and update handlers;
    [input.isActive !== false] is [input.isActive], as in [skillData]. *)
Definition connectionData (input : CreateConnectionInput.t) : json :=
  JObj (object
    [("name", Some (JStr (CreateConnectionInput.name input)));
     ("type", Some (JStr (CreateConnectionInput.type_ input)));
     ("config", Some (CreateConnectionInput.config input));
     ("isActive", Some (JBool (CreateConnectionInput.isActive input)))]).

Definition alfred_create_connection (config : AlfredClientConfig) (net : FetchOutcome json)
    (input : CreateConnectionInput.t) : M ToolResult :=
  try_catch
    (response <- createConnection config net (connectionData input) ;;
     if negb (success response)
     then ret (envelope_failure response "Failed to create connection")
     else ret (text_result (JSON_stringify (JObj (object
            [("success", Some (JBool true));
             ("connection", data response);
             ("message", Some (JStr ("Connection " ++ dquote ++ CreateConnectionInput.name input
                                       ++ dquote ++ " created successfully")))])))))
    (caught_failure "Failed to create connection").

Definition alfred_update_connection (config : AlfredClientConfig) (net : FetchOutcome json)
    (input : UpdateConnectionInput.t) : M ToolResult :=
  try_catch
    (response <- updateConnection config net (UpdateConnectionInput.connectionId input)
                   (connectionData (UpdateConnectionInput.fields input)) ;;
     if negb (success response)
     then ret (envelope_failure response "Failed to update connection")
     else ret (text_result (JSON_stringify (JObj (object
            [("success", Some (JBool true));
             ("connection", data response);
             ("message", Some (JStr "Connection updated successfully"))])))))
    (caught_failure "Failed to update connection").

(** [updateFields] of [alfred_patch_connection]. *)
Definition patch_connection_updateFields (input : PatchConnectionInput.t)
    : list (string * json) :=
  let updateFields := [] in
  let updateFields := assign_if_defined updateFields "name"
        (option_map JStr (PatchConnectionInput.name input)) in
  let updateFields := assign_if_defined updateFields "type"
        (option_map JStr (PatchConnectionInput.type_ input)) in
  let updateFields := assign_if_defined updateFields "config"
        (PatchConnectionInput.config input) in
  let updateFields := assign_if_defined updateFields "isActive"
        (option_map JBool (PatchConnectionInput.isActive input)) in
  updateFields.

Definition alfred_patch_connection (config : AlfredClientConfig) (net : FetchOutcome json)
    (input : PatchConnectionInput.t) : M ToolResult :=
  try_catch
    (response <- patchConnection config net (PatchConnectionInput.connectionId input)
                   (JObj (patch_connection_updateFields input)) ;;
     if negb (success response)
     then ret (envelope_failure response "Failed to patch connection")
     else ret (text_result (JSON_stringify (JObj (object
            [("success", Some (JBool true));
             ("connection", data response);
             ("message", Some (JStr "Connection patched successfully"))])))))
    (caught_failure "Failed to patch connection").

Definition alfred_delete_connection (config : AlfredClientConfig) (net : FetchOutcome json)
    (connectionId : string) : M ToolResult :=
  try_catch
    (response <- deleteConnection config net connectionId ;;
     if negb (success response)
     then ret (envelope_failure response "Failed to delete connection")
     else ret (text_result (JSON_stringify (JObj (object
            [("success", Some (JBool true));
             ("message", Some (JStr "Connection deleted successfully"));
             ("deletedConnection", data response)])))))
    (caught_failure "Failed to delete connection").

(** ** [types.ts]: executions and API keys *)

Module Execution.
Record t : Type := mk {
    id : string;
    skillId : string;
    status : string;
    trigger : string;
    input : maybe json;
    output : maybe string;
    trace : maybe json;
    error : maybe string;
    startedAt : string;
    completedAt : maybe string;
    durationMs : maybe Z;
    tokenCount : maybe Z;
    costUsd : maybe string;
    reportedToCore : bool
  }.
End Execution.

Module ExecutionStats.
Record overview_t : Type := mkOverview {
    total : Z;
    successful : Z;
    failed : Z;
    running : Z;
    successRate : Z;
    totalCostUsd : string;
    averageDurationMs : option Z   (* [number | null]: [None] is [null] *)
  }.
Record bySkill_t : Type := mkBySkill {
    skillId : string;
    skillName : string;
    count : Z;
    successCount : Z;
    avgDurationMs : Z;
    skill_totalCostUsd : string
  }.
Record byDay_t : Type := mkByDay {
    date : string;
    day_count : Z;
    day_successful : Z;
    day_failed : Z
  }.
Record t : Type := mk {
    overview : overview_t;
    bySkill : list bySkill_t;
    byDay : list byDay_t
  }.
End ExecutionStats.

(** An [ApiKey] as the remote service sends it.  The declared properties
    carry no secret; [undeclared] holds whatever else the JSON object
    carries, for instance a full key. *)
Module ApiKey.
Record t : Type := mk {
    id : string;
    name : string;
    keyPrefix : string;
    description : maybe string;
    isActive : bool;
    lastUsedAt : maybe string;
    expiresAt : maybe string;
    createdAt : string;
    updatedAt : string;
    undeclared : list (string * json)
  }.
End ApiKey.

Module CreateApiKeyResponse.
Record t : Type := mk {
    id : string;
    key : string;   (* the full key, shown once *)
    name : string;
    keyPrefix : string;
    description : maybe string;
    expiresAt : maybe string;
    isActive : bool;
    createdAt : string;
    message : option string
  }.
End CreateApiKeyResponse.

(** Truthiness of a nullable string. *)
Definition truthy_maybe (m : maybe string) : bool :=
  match m with
  | Defined s => truthy_string s
  | _ => false
  end.

(** The string of a nullable string that is known to be truthy. *)
Definition maybe_string (m : maybe string) : string :=
  match m with
  | Defined s => s
  | Null => "null"
  | Undefined => "undefined"
  end.

(** [`${response.error || response.message}`]. *)
Definition error_or_message {T} (response : AlfredApiResponse T) : string :=
  match error response with
  | Some e =>
      if truthy_string e then e
      else match message response with Some m => m | None => "undefined" end
  | None => match message response with Some m => m | None => "undefined" end
  end.

(** A property read on [response.data] cast to its declared type: it throws
    a [TypeError] when [data] is [undefined]. *)
Definition data_of {T} (response : AlfredApiResponse T) (prop : string) : M T :=
  match data response with
  | Some d => ret d
  | None => throw (TypeError_undefined prop)
  end.

(** ** [tools/executions.ts] *)

(** The input schema of [alfred_list_executions].  The string formats of
    zod, [z.string().uuid()] and [z.string().datetime()], are taken as
    given: [parse] receives them as [zod_uuid] and [zod_datetime]. *)
Module ListExecutionsInput.
Record raw : Type := mkRaw {
    raw_skillId : option string;
    raw_status : option string;
    raw_trigger : option string;
    raw_startDate : option string;
    raw_endDate : option string;
    raw_limit : option Z;
    raw_offset : option Z;
    raw_sortBy : option string;
    raw_sortOrder : option string
  }.
Record t : Type := mk {
    skillId : option string;
    status : option string;
    trigger : option string;
    startDate : option string;
    endDate : option string;
    limit : Z;
    offset : Z;
    sortBy : option string;
    sortOrder : option string
  }.
Definition parse (zod_uuid zod_datetime : string -> bool) (r : raw) : option t :=
    if zod_optional zod_uuid (raw_skillId r)
       && zod_optional (zod_enum execution_statuses) (raw_status r)
       && zod_optional zod_datetime (raw_startDate r)
       && zod_optional zod_datetime (raw_endDate r)
       && zod_optional (fun n => (1 <=? n) && (n <=? 100)) (raw_limit r)
       && zod_optional (fun n => 0 <=? n) (raw_offset r)
       && zod_optional (zod_enum sort_orders) (raw_sortOrder r)
    then Some (mk (raw_skillId r) (raw_status r) (raw_trigger r)
                 (raw_startDate r) (raw_endDate r)
                 (zod_default 50 (raw_limit r)) (zod_default 0 (raw_offset r))
                 (raw_sortBy r) (raw_sortOrder r))
    else None.
End ListExecutionsInput.

Module ExecutionStatsInput.
Record t : Type := mk {
    startDate : option string;
    endDate : option string;
    skillId : option string
  }.
End ExecutionStatsInput.

(** The handlers' [catch (error: any)]: the text is built from
    [error.message]. *)
Definition caught_text (what : string) (e : JsError) : M ToolResult :=
  ret (text_result (what ++ ": " ++ emessage e)).

Definition list_executions_params (input : ListExecutionsInput.t) : Params :=
  [("skillId", option_map PStr (ListExecutionsInput.skillId input));
   ("status", option_map PStr (ListExecutionsInput.status input));
   ("trigger", option_map PStr (ListExecutionsInput.trigger input));
   ("startDate", option_map PStr (ListExecutionsInput.startDate input));
   ("endDate", option_map PStr (ListExecutionsInput.endDate input));
   ("limit", Some (PNum (ListExecutionsInput.limit input)));
   ("offset", Some (PNum (ListExecutionsInput.offset input)));
   ("sortBy", option_map PStr (ListExecutionsInput.sortBy input));
   ("sortOrder", option_map PStr (ListExecutionsInput.sortOrder input))].

(** [meta?.p]: the property [p] of [meta], [undefined] when [meta] is
    [undefined] or [null] or has no such property (no property read here
    is one that a string, a number or an array has of its own). *)
Definition optional_property (m : option json) (p : string) : option json :=
  match m with
  | Some (JObj o) => member p o
  | _ => None
  end.

(** [meta?.p || d]. *)
Definition meta_or (m : option json) (p : string) (d : json) : json :=
  match optional_property m p with
  | Some v => if truthy (Some v) then v else d
  | None => d
  end.

(** One element of [executions.map((e) => ({ ... }))]. *)
Definition execution_summary (e : Execution.t) : json :=
  JObj (object
    [("id", Some (JStr (Execution.id e)));
     ("skillId", Some (JStr (Execution.skillId e)));
     ("status", Some (JStr (Execution.status e)));
     ("trigger", Some (JStr (Execution.trigger e)));
     ("startedAt", Some (JStr (Execution.startedAt e)));
     ("completedAt", json_of_maybe JStr (Execution.completedAt e));
     ("durationMs", json_of_maybe JNum (Execution.durationMs e));
     ("error", Some (if truthy_maybe (Execution.error e)
                     then JStr (maybe_string (Execution.error e))
                     else JNull))]).

Definition alfred_list_executions (config : AlfredClientConfig)
    (net : FetchOutcome (list Execution.t)) (input : ListExecutionsInput.t) : M ToolResult :=
  try_catch
    (response <- listExecutions config net (Some (list_executions_params input)) ;;
     if negb (success response)
     then ret (text_result ("Error listing executions: " ++ error_or_message response))
     else
       let meta_ := meta response in
       executions <- data_of response "length" ;;
       ret (text_result (JSON_stringify_2 (JObj (object
            [("success", Some (JBool true));
             ("count", Some (JNum (Z.of_nat (List.length executions))));
             ("total", Some (meta_or meta_ "total" (JNum 0)));
             ("page", Some (meta_or meta_ "page" (JNum 1)));
             ("limit", Some (meta_or meta_ "limit" (JNum 50)));
             ("totalPages", Some (meta_or meta_ "totalPages" (JNum 0)));
             ("hasMore", Some (meta_or meta_ "hasMore" (JBool false)));
             ("executions", Some (JArr (map execution_summary executions)))])))))
    (caught_text "Failed to list executions").

Definition alfred_get_execution (config : AlfredClientConfig)
    (net : FetchOutcome Execution.t) (executionId : string) : M ToolResult :=
  try_catch
    (response <- getExecution config net executionId ;;
     if negb (success response)
     then ret (text_result ("Error getting execution: " ++ error_or_message response))
     else
       execution <- data_of response "id" ;;
       ret (text_result (JSON_stringify_2 (JObj (object
            [("success", Some (JBool true));
             ("execution", Some (JObj (object
                [("id", Some (JStr (Execution.id execution)));
                 ("skillId", Some (JStr (Execution.skillId execution)));
                 ("status", Some (JStr (Execution.status execution)));
                 ("trigger", Some (JStr (Execution.trigger execution)));
                 ("input", json_of_maybe (fun x => x) (Execution.input execution));
                 ("output", json_of_maybe JStr (Execution.output execution));
                 ("error", json_of_maybe JStr (Execution.error execution));
                 ("startedAt", Some (JStr (Execution.startedAt execution)));
                 ("completedAt", json_of_maybe JStr (Execution.completedAt execution));
                 ("durationMs", json_of_maybe JNum (Execution.durationMs execution));
                 ("tokenCount", json_of_maybe JNum (Execution.tokenCount execution));
                 ("costUsd", json_of_maybe JStr (Execution.costUsd execution));
                 ("reportedToCore", Some (JBool (Execution.reportedToCore execution)))])))])))))
    (caught_text "Failed to get execution").

Definition alfred_get_execution_trace (config : AlfredClientConfig)
    (net : FetchOutcome json) (executionId : string) : M ToolResult :=
  try_catch
    (response <- getExecutionTrace config net executionId ;;
     if negb (success response)
     then ret (text_result ("Error getting execution trace: " ++ error_or_message response))
     else
       let trace := data response in
       ret (text_result (JSON_stringify_2 (JObj (object
            [("success", Some (JBool true));
             ("executionId", Some (JStr executionId));
             ("trace", trace)])))))
    (caught_text "Failed to get execution trace").

Definition execution_stats_params (input : ExecutionStatsInput.t) : Params :=
  [("startDate", option_map PStr (ExecutionStatsInput.startDate input));
   ("endDate", option_map PStr (ExecutionStatsInput.endDate input));
   ("skillId", option_map PStr (ExecutionStatsInput.skillId input))].

Definition stats_json (stats : ExecutionStats.t) : json :=
  let o := ExecutionStats.overview stats in
  JObj (object
    [("overview", Some (JObj (object
        [("total", Some (JNum (ExecutionStats.total o)));
         ("successful", Some (JNum (ExecutionStats.successful o)));
         ("failed", Some (JNum (ExecutionStats.failed o)));
         ("running", Some (JNum (ExecutionStats.running o)));
         ("successRate", Some (JNum (ExecutionStats.successRate o)));
         ("totalCostUsd", Some (JStr (ExecutionStats.totalCostUsd o)));
         ("averageDurationMs",
            Some (match ExecutionStats.averageDurationMs o with
                  | Some n => JNum n
                  | None => JNull
                  end))])));
     ("bySkill", Some (JArr (map (fun skill => JObj (object
        [("skillId", Some (JStr (ExecutionStats.skillId skill)));
         ("skillName", Some (JStr (ExecutionStats.skillName skill)));
         ("count", Some (JNum (ExecutionStats.count skill)));
         ("successCount", Some (JNum (ExecutionStats.successCount skill)));
         ("avgDurationMs", Some (JNum (ExecutionStats.avgDurationMs skill)));
         ("totalCostUsd", Some (JStr (ExecutionStats.skill_totalCostUsd skill)))]))
        (ExecutionStats.bySkill stats))));
     ("byDay", Some (JArr (map (fun day => JObj (object
        [("date", Some (JStr (ExecutionStats.date day)));
         ("count", Some (JNum (ExecutionStats.day_count day)));
         ("successful", Some (JNum (ExecutionStats.day_successful day)));
         ("failed", Some (JNum (ExecutionStats.day_failed day)))]))
        (ExecutionStats.byDay stats))))]).

Definition alfred_get_execution_stats (config : AlfredClientConfig)
    (net : FetchOutcome ExecutionStats.t) (input : ExecutionStatsInput.t) : M ToolResult :=
  try_catch
    (response <- getExecutionStats config net (Some (execution_stats_params input)) ;;
     if negb (success response)
     then ret (text_result ("Error getting execution stats: " ++ error_or_message response))
     else
       stats <- data_of response "overview" ;;
       ret (text_result (JSON_stringify_2 (JObj (object
            [("success", Some (JBool true));
             ("stats", Some (stats_json stats))])))))
    (caught_text "Failed to get execution stats").

Definition alfred_delete_execution (config : AlfredClientConfig)
    (net : FetchOutcome Execution.t) (executionId : string) : M ToolResult :=
  try_catch
    (response <- deleteExecution config net executionId ;;
     if negb (success response)
     then ret (text_result ("Error deleting execution: " ++ error_or_message response))
     else
       execution <- data_of response "id" ;;
       ret (text_result (JSON_stringify_2 (JObj (object
            [("success", Some (JBool true));
             ("message", Some (JStr ("Execution " ++ executionId ++ " deleted successfully")));
             ("execution", Some (JObj (object
                [("id", Some (JStr (Execution.id execution)));
                 ("skillId", Some (JStr (Execution.skillId execution)));
                 ("status", Some (JStr (Execution.status execution)));
                 ("startedAt", Some (JStr (Execution.startedAt execution)));
                 ("completedAt", json_of_maybe JStr (Execution.completedAt execution))])))])))))
    (caught_text "Failed to delete execution").

(** ** [tools/auth.ts] *)

Module CreateApiKeyInput.
Record t : Type := mk {
    name : string;
    description : option string;
    expiresAt : option string
  }.
End CreateApiKeyInput.

(** The [if (!response.success ...)] branch of the auth handlers:
    [JSON.stringify({ error: response.error || fallback,
                      message: response.message }, null, 2)]. *)
Definition auth_failure {T} (response : AlfredApiResponse T) (fallback : string)
    : ToolResult :=
  text_result (JSON_stringify_2 (JObj (object
    [("error", Some (JStr (or_string (error response) fallback)));
     ("message", option_map JStr (message response))]))).

(** The [catch] of the auth handlers:
    [JSON.stringify({ error: what, details: errorMessage }, null, 2)], with
    [isError: true]; [errorMessage] is [error.message], the thrown value
    being an [Error] object. *)
Definition auth_caught (what : string) (e : JsError) : M ToolResult :=
  let errorMessage := emessage e in
  ret (error_result (JSON_stringify_2 (JObj (object
    [("error", Some (JStr what));
     ("details", Some (JStr errorMessage))])))).

(** The warning rendered with a newly created key. *)
Definition one_time_warning : string :=
  "WARNING: This is the only time the API key will be displayed. Save it securely immediately.".

(** [resultText] of [alfred_create_api_key]. *)
Definition create_api_key_text (apiKey : CreateApiKeyResponse.t) : string :=
  "API Key Created Successfully" ++ nl
  ++ nl
  ++ one_time_warning ++ nl
  ++ nl
  ++ "Key Details:" ++ nl
  ++ "- ID: " ++ CreateApiKeyResponse.id apiKey ++ nl
  ++ "- Name: " ++ CreateApiKeyResponse.name apiKey ++ nl
  ++ "- Key: " ++ CreateApiKeyResponse.key apiKey ++ nl
  ++ "- Key Prefix: " ++ CreateApiKeyResponse.keyPrefix apiKey ++ nl
  ++ (if truthy_maybe (CreateApiKeyResponse.description apiKey)
      then "- Description: " ++ maybe_string (CreateApiKeyResponse.description apiKey)
      else "") ++ nl
  ++ (if truthy_maybe (CreateApiKeyResponse.expiresAt apiKey)
      then "- Expires At: " ++ maybe_string (CreateApiKeyResponse.expiresAt apiKey)
      else "- Expires: Never") ++ nl
  ++ "- Created At: " ++ CreateApiKeyResponse.createdAt apiKey ++ nl
  ++ "- Active: " ++ String_boolean (CreateApiKeyResponse.isActive apiKey) ++ nl
  ++ nl
  ++ "Use this API key in the X-API-Key header when making requests to the Alfred API.".

Definition alfred_create_api_key (config : AlfredClientConfig)
    (net : FetchOutcome CreateApiKeyResponse.t) (params : CreateApiKeyInput.t)
    : M ToolResult :=
  try_catch
    (response <- createApiKey config net (JObj (object
        [("name", Some (JStr (CreateApiKeyInput.name params)));
         ("description", option_map JStr (CreateApiKeyInput.description params));
         ("expiresAt", option_map JStr (CreateApiKeyInput.expiresAt params))])) ;;
     match success response, data response with
     | true, Some apiKey => ret (text_result (create_api_key_text apiKey))
     | _, _ => ret (auth_failure response "Failed to create API key")
     end)
    (auth_caught "Failed to create API key").

(** One entry of the listing: the body of [apiKeys.map((key, index) => ...)],
    [index] counted from zero. *)
Definition api_key_entry (index : nat) (key : ApiKey.t) : string :=
  String_number (Z.of_nat index + 1) ++ ". " ++ ApiKey.name key ++ nl
  ++ "   ID: " ++ ApiKey.id key ++ nl
  ++ "   Prefix: " ++ ApiKey.keyPrefix key ++ nl
  ++ "   Active: " ++ String_boolean (ApiKey.isActive key) ++ nl
  ++ "   Created: " ++ ApiKey.createdAt key ++ nl
  ++ "   " ++ (if truthy_maybe (ApiKey.expiresAt key)
               then "Expires: " ++ maybe_string (ApiKey.expiresAt key)
               else "Expires: Never") ++ nl
  ++ "   " ++ (if truthy_maybe (ApiKey.lastUsedAt key)
               then "Last Used: " ++ maybe_string (ApiKey.lastUsedAt key)
               else "Last Used: Never") ++ nl
  ++ "   " ++ (if truthy_maybe (ApiKey.description key)
               then "Description: " ++ maybe_string (ApiKey.description key)
               else "").

(** [array.map((x, index) => f(index, x))], from position [start]. *)
Fixpoint map_indexed {A B} (f : nat -> A -> B) (start : nat) (l : list A) : list B :=
  match l with
  | [] => []
  | x :: rest => f start x :: map_indexed f (S start) rest
  end.

(** [resultText] of [alfred_list_api_keys] for a list that is not empty. *)
Definition list_api_keys_text (apiKeys : list ApiKey.t) : string :=
  let keysText := join (nl ++ nl) (map_indexed api_key_entry 0 apiKeys) in
  "API Keys (" ++ String_number (Z.of_nat (List.length apiKeys)) ++ " total)" ++ nl
  ++ nl
  ++ keysText ++ nl
  ++ nl
  ++ "Note: For security, full API key values are never returned in list operations." ++ nl
  ++ "If you need a new key, use alfred_create_api_key.".

Definition alfred_list_api_keys (config : AlfredClientConfig)
    (net : FetchOutcome (list ApiKey.t)) : M ToolResult :=
  try_catch
    (response <- listApiKeys config net ;;
     match success response, data response with
     | true, Some apiKeys =>
         if (List.length apiKeys =? 0)%nat
         then ret (text_result "No API keys found. Create one using alfred_create_api_key.")
         else ret (text_result (list_api_keys_text apiKeys))
     | _, _ => ret (auth_failure response "Failed to list API keys")
     end)
    (auth_caught "Failed to list API keys").

Definition delete_api_key_text (deletedKey : ApiKey.t) : string :=
  "API Key Deleted Successfully" ++ nl
  ++ nl
  ++ "Deleted Key:" ++ nl
  ++ "- ID: " ++ ApiKey.id deletedKey ++ nl
  ++ "- Name: " ++ ApiKey.name deletedKey ++ nl
  ++ "- Key Prefix: " ++ ApiKey.keyPrefix deletedKey ++ nl
  ++ nl
  ++ "This API key is now invalid and can no longer be used to authenticate." ++ nl
  ++ "Any applications or integrations using this key will lose access.".

Definition alfred_delete_api_key (config : AlfredClientConfig)
    (net : FetchOutcome ApiKey.t) (id : string) : M ToolResult :=
  try_catch
    (response <- deleteApiKey config net id ;;
     if negb (success response)
     then ret (auth_failure response "Failed to delete API key")
     else
       deletedKey <- data_of response "id" ;;
       ret (text_result (delete_api_key_text deletedKey)))
    (auth_caught "Failed to delete API key").

(** ** The registered tools *)

(** One invocation of a registered tool: its validated input and what the
    network does with its single call.  The host is taken to hand a
    handler the arguments that passed the tool's schema; the handlers of
    the executions and auth tools read them as [request.params]. *)
Inductive ToolCall : Type :=
| call_list_skills (input : ListSkillsInput.t) (net : FetchOutcome json)
| call_get_skill (skillId : string) (net : FetchOutcome json)
| call_create_skill (input : CreateSkillInput.t) (net : FetchOutcome json)
| call_update_skill (input : UpdateSkillInput.t) (net : FetchOutcome json)
| call_patch_skill (input : PatchSkillInput.t) (net : FetchOutcome json)
| call_delete_skill (input : DeleteSkillInput.t) (net : FetchOutcome json)
| call_list_connections (input : ListConnectionsInput.t) (net : FetchOutcome json)
| call_get_connection (connectionId : string) (net : FetchOutcome json)
| call_create_connection (input : CreateConnectionInput.t) (net : FetchOutcome json)
| call_update_connection (input : UpdateConnectionInput.t) (net : FetchOutcome json)
| call_patch_connection (input : PatchConnectionInput.t) (net : FetchOutcome json)
| call_delete_connection (connectionId : string) (net : FetchOutcome json)
| call_list_executions (input : ListExecutionsInput.t) (net : FetchOutcome (list Execution.t))
| call_get_execution (executionId : string) (net : FetchOutcome Execution.t)
| call_get_execution_trace (executionId : string) (net : FetchOutcome json)
| call_get_execution_stats (input : ExecutionStatsInput.t) (net : FetchOutcome ExecutionStats.t)
| call_delete_execution (executionId : string) (net : FetchOutcome Execution.t)
| call_create_api_key (params : CreateApiKeyInput.t) (net : FetchOutcome CreateApiKeyResponse.t)
| call_list_api_keys (net : FetchOutcome (list ApiKey.t))
| call_delete_api_key (id : string) (net : FetchOutcome ApiKey.t).

(** The name under which each tool is registered. *)
Definition tool_name (c : ToolCall) : string :=
  match c with
  | call_list_skills _ _ => "alfred_list_skills"
  | call_get_skill _ _ => "alfred_get_skill"
  | call_create_skill _ _ => "alfred_create_skill"
  | call_update_skill _ _ => "alfred_update_skill"
  | call_patch_skill _ _ => "alfred_patch_skill"
  | call_delete_skill _ _ => "alfred_delete_skill"
  | call_list_connections _ _ => "alfred_list_connections"
  | call_get_connection _ _ => "alfred_get_connection"
  | call_create_connection _ _ => "alfred_create_connection"
  | call_update_connection _ _ => "alfred_update_connection"
  | call_patch_connection _ _ => "alfred_patch_connection"
  | call_delete_connection _ _ => "alfred_delete_connection"
  | call_list_executions _ _ => "alfred_list_executions"
  | call_get_execution _ _ => "alfred_get_execution"
  | call_get_execution_trace _ _ => "alfred_get_execution_trace"
  | call_get_execution_stats _ _ => "alfred_get_execution_stats"
  | call_delete_execution _ _ => "alfred_delete_execution"
  | call_create_api_key _ _ => "alfred_create_api_key"
  | call_list_api_keys _ => "alfred_list_api_keys"
  | call_delete_api_key _ _ => "alfred_delete_api_key"
  end.

(** The handler the host runs for an invocation. *)
Definition run_tool (config : AlfredClientConfig) (c : ToolCall) : M ToolResult :=
  match c with
  | call_list_skills input net => alfred_list_skills config net input
  | call_get_skill skillId net => alfred_get_skill config net skillId
  | call_create_skill input net => alfred_create_skill config net input
  | call_update_skill input net => alfred_update_skill config net input
  | call_patch_skill input net => alfred_patch_skill config net input
  | call_delete_skill input net => alfred_delete_skill config net input
  | call_list_connections input net => alfred_list_connections config net input
  | call_get_connection connectionId net => alfred_get_connection config net connectionId
  | call_create_connection input net => alfred_create_connection config net input
  | call_update_connection input net => alfred_update_connection config net input
  | call_patch_connection input net => alfred_patch_connection config net input
  | call_delete_connection connectionId net => alfred_delete_connection config net connectionId
  | call_list_executions input net => alfred_list_executions config net input
  | call_get_execution executionId net => alfred_get_execution config net executionId
  | call_get_execution_trace executionId net => alfred_get_execution_trace config net executionId
  | call_get_execution_stats input net => alfred_get_execution_stats config net input
  | call_delete_execution executionId net => alfred_delete_execution config net executionId
  | call_create_api_key params net => alfred_create_api_key config net params
  | call_list_api_keys net => alfred_list_api_keys config net
  | call_delete_api_key id net => alfred_delete_api_key config net id
  end.

(** The host validates the caller's arguments with the tool's input schema
    and runs the handler on the parsed value; arguments that fail the
    schema never reach the handler. *)
Definition invoke {raw input : Type} (parse : raw -> option input)
    (handler : input -> M ToolResult) (args : raw) : option (World * Result ToolResult) :=
  match parse args with
  | Some i => Some (handler i idle)
  | None => None
  end.

Definition invoke_list_skills (config : AlfredClientConfig) (net : FetchOutcome json) :=
  invoke ListSkillsInput.parse (alfred_list_skills config net).

Definition invoke_list_connections (config : AlfredClientConfig) (net : FetchOutcome json) :=
  invoke ListConnectionsInput.parse (alfred_list_connections config net).

Definition invoke_list_executions (zod_uuid zod_datetime : string -> bool)
    (config : AlfredClientConfig) (net : FetchOutcome (list Execution.t)) :=
  invoke (ListExecutionsInput.parse zod_uuid zod_datetime) (alfred_list_executions config net).

(** * Properties *)

(** ** Computations that settle *)

(** [c] never ends in a promise that stays pending, and a value that it
    returns satisfies [P]. *)
Definition ends {A} (P : A -> Prop) (c : M A) : Prop :=
  forall w,
    match snd (c w) with
    | Return a => P a
    | Throw _ => True
    | Pending => False
    end.

(** [c] always returns a value, and that value satisfies [P]: [c] neither
    throws nor stays pending. *)
Definition returns {A} (P : A -> Prop) (c : M A) : Prop :=
  forall w, exists a, snd (c w) = Return a /\ P a.

Lemma ends_ret {A} (P : A -> Prop) (a : A) : P a -> ends P (ret a).
Proof. intros Ha w. exact Ha. Qed.

Lemma ends_throw {A} (P : A -> Prop) (e : JsError) : ends P (throw e).
Proof. intros w. exact I. Qed.

Lemma ends_bind {A B} (Q : A -> Prop) (P : B -> Prop) (c : M A) (k : A -> M B) :
  ends Q c -> (forall a, Q a -> ends P (k a)) -> ends P (bind c k).
Proof.
  intros Hc Hk w. unfold bind.
  specialize (Hc w). destruct (c w) as [w' [a | e |]]; simpl in *.
  - apply (Hk a Hc).
  - exact I.
  - contradiction.
Qed.

Lemma ends_data_of {T} (P : T -> Prop) (response : AlfredApiResponse T) prop :
  (forall d, data response = Some d -> P d) -> ends P (data_of response prop).
Proof.
  intros H. unfold data_of. destruct (data response) as [d |].
  - apply ends_ret. now apply H.
  - apply ends_throw.
Qed.

Lemma returns_ret {A} (P : A -> Prop) (a : A) : P a -> returns P (ret a).
Proof. intros Ha w. exists a. split; [reflexivity | exact Ha]. Qed.

Lemma returns_try_catch {A} (P : A -> Prop) (c : M A) (h : JsError -> M A) :
  ends P c -> (forall e, returns P (h e)) -> returns P (try_catch c h).
Proof.
  intros Hc Hh w. unfold try_catch.
  specialize (Hc w). destruct (c w) as [w' [a | e |]]; simpl in *.
  - exists a. split; [reflexivity | exact Hc].
  - apply Hh.
  - contradiction.
Qed.

(** ** What [request] does, by network behaviour *)

(** The world after one call has been handed to [fetch] and settled. *)
Definition after_call (w : World) (req : HttpRequest) (tm : option Z) (ab : bool) : World :=
  mkWorld (calls w ++ [req])%list (in_flight w) (cancelled w) tm ab.

(** The result of [request] on a response. *)
Definition response_result {T} (r : Response T) : Result (AlfredApiResponse T) :=
  match json_body r with
  | NotJson why => Throw (SyntaxError why)
  | Json envelope =>
      if ok r then Return envelope
      else Throw (Error (or_string (error envelope)
                           (or_string (message envelope) (http_status_message r))))
  end.

Lemma request_Responds {T} config (r : Response T) method path body w :
  request config (Responds r) method path body w
  = (after_call w (outbound config method path body) None false, response_result r).
Proof.
  unfold request, try_catch, bind, response_result, response_json, after_call. simpl.
  destruct (json_body r) as [why | envelope]; simpl; [reflexivity |].
  destruct (ok r); reflexivity.
Qed.

Definition timeout_error (config : AlfredClientConfig) : JsError :=
  Error ("Request timeout after " ++ String_number (timeout config) ++ "ms").

Lemma request_Fails {T} config (e : JsError) method path body w :
  request (T:=T) config (Fails e) method path body w
  = (after_call w (outbound config method path body) (Some (timeout config)) false,
     Throw (if String.eqb (ename e) "AbortError" then timeout_error config else e)).
Proof.
  unfold request, try_catch, bind, after_call. simpl.
  destruct (String.eqb (ename e) "AbortError"); reflexivity.
Qed.

Lemma request_Silent {T} config method path body w :
  request (T:=T) config Silent method path body w
  = (mkWorld (calls w ++ [outbound config method path body])%list (in_flight w)
       (cancelled w ++ [outbound config method path body])%list None true,
     Throw (timeout_error config)).
Proof. reflexivity. Qed.

(** A response or a failure that arrives at a given time is received when
    that time is within the delay of the timer that [request] arms with
    the configured timeout; otherwise the call ends as on a network that
    never answers. *)
Lemma request_RespondsAfter {T} config ms (r : Response T) method path body w :
  request config (RespondsAfter ms r) method path body w
  = if ms <=? timer_delay (timeout config)
    then request config (Responds r) method path body w
    else request config Silent method path body w.
Proof.
  unfold request, try_catch, bind. simpl.
  destruct (ms <=? timer_delay (timeout config)); reflexivity.
Qed.

Lemma request_FailsAfter {T} config ms (e : JsError) method path body w :
  request (T:=T) config (FailsAfter ms e) method path body w
  = if ms <=? timer_delay (timeout config)
    then request config (Fails e) method path body w
    else request config Silent method path body w.
Proof.
  unfold request, try_catch, bind. simpl.
  destruct (ms <=? timer_delay (timeout config)); reflexivity.
Qed.

(** Every behaviour of the network comes down, for [request], to one of
    the three that say nothing of time. *)
Ltac network_cases net :=
  destruct net as [? | ? | | ? ? | ? ?];
  [ | |
  | rewrite ?request_RespondsAfter; destruct (_ <=? timer_delay _)
  | rewrite ?request_FailsAfter; destruct (_ <=? timer_delay _) ];
  rewrite ?request_Responds, ?request_Fails, ?request_Silent.

Lemma ends_request {T} config (net : FetchOutcome T) method path body :
  ends (fun _ => True) (request config net method path body).
Proof.
  intros w. network_cases net; try exact I;
    unfold response_result; simpl;
    (destruct (json_body _); [exact I |]; destruct (ok _); exact I).
Qed.

(** ** The envelope of a 2xx response *)

Lemma includes_refl (s : string) : includes s s.
Proof.
  exists "", "". simpl. induction s as [| c s IH]; simpl; [reflexivity | f_equal; exact IH].
Qed.

Lemma includes_empty (t : string) : includes t "".
Proof. exists "", t. reflexivity. Qed.

Lemma append_assoc (a b c : string) : (a ++ b) ++ c = a ++ b ++ c.
Proof. induction a as [| x a IH]; simpl; [reflexivity | f_equal; exact IH]. Qed.

Lemma includes_middle (pre s post : string) : includes (pre ++ s ++ post) s.
Proof. exists pre, post. reflexivity. Qed.

Lemma or_string_cases (x : option string) (d : string) :
  (exists s, x = Some s /\ s <> "" /\ or_string x d = s)
  \/ ((x = None \/ x = Some "") /\ or_string x d = d).
Proof.
  destruct x as [s |]; simpl.
  - unfold truthy_string. destruct (String.eqb_spec s "") as [-> | Hne]; simpl.
    + right; split; [right |]; reflexivity.
    + left; exists s; repeat split; assumption.
  - right; split; [left |]; reflexivity.
Qed.

Lemma or_string_truthy (s d : string) : s <> "" -> or_string (Some s) d = s.
Proof.
  intros Hne. simpl. unfold truthy_string.
  destruct (String.eqb_spec s ""); [contradiction | reflexivity].
Qed.

(** The text of a compact failure payload. *)
Lemma failure_payload_text (msg : string) :
  JSON_stringify (failure_payload msg)
  = ("{" ++ quote "error" ++ ":" ++ dquote) ++ quote_body msg
     ++ (dquote ++ "," ++ quote "success" ++ ":false}").
Proof.
  unfold failure_payload, quote, dquote. simpl.
  repeat (rewrite append_assoc; simpl). reflexivity.
Qed.

Lemma request_2xx_returns_envelope {T} config method path body
    (r : Response T) (envelope : AlfredApiResponse T) w :
  ok r = true -> json_body r = Json envelope ->
  snd (request config (Responds r) method path body w) = Return envelope.
Proof.
  intros Hok Hjson. rewrite request_Responds. unfold response_result.
  rewrite Hjson, Hok. reflexivity.
Qed.

Lemma list_skills_failure_envelope config input (r : Response json) envelope w :
  ok r = true -> json_body r = Json envelope -> success envelope = false ->
  snd (alfred_list_skills config (Responds r) input w)
  = Return (envelope_failure envelope "Failed to list skills").
Proof.
  intros Hok Hjson Hs.
  unfold alfred_list_skills, try_catch, bind, listSkills.
  rewrite request_Responds. unfold response_result. rewrite Hjson, Hok, Hs. reflexivity.
Qed.

(** C1.  A 2xx response makes [request] return the parsed envelope
    unchanged, whatever its [success] flag; and when that envelope has
    [success: false] and an [error] string, [alfred_list_skills] returns
    (it does not throw) the text of the object
    [{ error: msg, success: false }] in which [msg] contains the envelope's
    error string and is that string whenever it is not empty. *)
Theorem C1_envelope_pass_through :
  (forall T config method path body (r : Response T) (envelope : AlfredApiResponse T) w,
      ok r = true -> json_body r = Json envelope ->
      snd (request config (Responds r) method path body w) = Return envelope)
  /\
  (forall config input (r : Response json) envelope e w,
      ok r = true -> json_body r = Json envelope ->
      success envelope = false -> error envelope = Some e ->
      exists msg,
        snd (alfred_list_skills config (Responds r) input w)
        = Return (text_result (JSON_stringify
                    (JObj [("error", JStr msg); ("success", JBool false)])))
        /\ includes msg e
        /\ (e <> "" -> msg = e)
        /\ includes (JSON_stringify (JObj [("error", JStr msg); ("success", JBool false)]))
                    (quote_body msg)).
Proof.
  split.
  - intros. now apply request_2xx_returns_envelope.
  - intros config input r envelope e w Hok Hjson Hs He.
    exists (or_string (error envelope) "Failed to list skills").
    split; [| split; [| split]].
    + now apply list_skills_failure_envelope.
    + rewrite He. destruct (or_string_cases (Some e) "Failed to list skills")
        as [(s & Hs' & _ & ->) | ([Hnone | Hempty] & ->)].
      * injection Hs' as <-. apply includes_refl.
      * discriminate.
      * injection Hempty as ->. apply includes_empty.
    + intros Hne. rewrite He. now apply or_string_truthy.
    + change (JObj [("error", JStr ?m); ("success", JBool false)]) with (failure_payload m).
      rewrite failure_payload_text. apply includes_middle.
Qed.

(** The default configuration of the server, with some API key. *)
Definition config0 : AlfredClientConfig :=
  mkConfig "alf_0123456789" "http://localhost:3001/api/v1" 30000.

Definition not_found_envelope : AlfredApiResponse json :=
  mkEnvelope false None (Some "not found") None None.

Definition list_all_skills : ListSkillsInput.t :=
  ListSkillsInput.mk None None None 50 0 None None.

(** The instance of C1 named in the specification: HTTP 200 with
    [{ success: false, error: "not found" }]. *)
Lemma C1_witness :
  snd (request config0 (Responds (mkResponse 200 "OK" (Json not_found_envelope)))
         "GET" "/skills" None idle) = Return not_found_envelope
  /\ exists msg,
       snd (alfred_list_skills config0
              (Responds (mkResponse 200 "OK" (Json not_found_envelope))) list_all_skills idle)
       = Return (text_result (JSON_stringify
                   (JObj [("error", JStr msg); ("success", JBool false)])))
       /\ includes msg "not found"
       /\ ("not found" <> "" -> msg = "not found")
       /\ includes (JSON_stringify (JObj [("error", JStr msg); ("success", JBool false)]))
                   (quote_body msg).
Proof.
  split.
  - apply (proj1 C1_envelope_pass_through); reflexivity.
  - apply (proj2 C1_envelope_pass_through) with (envelope := not_found_envelope); reflexivity.
Defined.

(** The text that the tool returns for that envelope. *)
Example not_found_text :
  snd (alfred_list_skills config0
         (Responds (mkResponse 200 "OK" (Json not_found_envelope))) list_all_skills idle)
  = Return (text_result ("{" ++ quote "error" ++ ":" ++ quote "not found" ++ ","
                             ++ quote "success" ++ ":false}")).
Proof. reflexivity. Qed.

(** The scenario of the specification: deleting skill [abc] without force
    against a stub that answers that the skill has active executions. *)
Example delete_skill_refused :
  alfred_delete_skill config0
    (Responds (mkResponse 200 "OK"
       (Json (mkEnvelope false None (Some "has active executions") None None))))
    (DeleteSkillInput.mk "abc" (Some false)) idle
  = (mkWorld [outbound config0 "DELETE" "/skills/abc" None] [] [] None false,
     Return (text_result ("{" ++ quote "error" ++ ":" ++ quote "has active executions" ++ ","
                              ++ quote "success" ++ ":false}"))).
Proof. reflexivity. Qed.

(** ** Failures of [request] *)

(** An optional string that the [||] chain skips: absent or empty. *)
Definition falsy_string (x : option string) : Prop :=
  x = None \/ x = Some "".

Lemma or_string_falsy (x : option string) (d : string) :
  falsy_string x -> or_string x d = d.
Proof. intros [-> | ->]; reflexivity. Qed.

Lemma request_non_2xx {T} config method path body
    (r : Response T) (envelope : AlfredApiResponse T) w :
  ok r = false -> json_body r = Json envelope ->
  snd (request config (Responds r) method path body w)
  = Throw (Error (or_string (error envelope)
                    (or_string (message envelope) (http_status_message r)))).
Proof.
  intros Hok Hjson. rewrite request_Responds. unfold response_result.
  rewrite Hjson, Hok. reflexivity.
Qed.

Lemma request_not_json {T} config method path body (r : Response T) why w :
  json_body r = NotJson why ->
  snd (request config (Responds r) method path body w) = Throw (SyntaxError why).
Proof.
  intros Hjson. rewrite request_Responds. unfold response_result.
  rewrite Hjson. reflexivity.
Qed.

(** The message that the sentence of the specification prescribes for a
    non-2xx response: the envelope's [error] field if present, else its
    [message] field if present, else the synthesized text.  A body that is
    not JSON carries neither field. *)
Definition prescribed_message {T} (r : Response T) : string :=
  let fields :=
    match json_body r with
    | Json envelope => (error envelope, message envelope)
    | NotJson _ => (None, None)
    end in
  match fst fields, snd fields with
  | Some e, _ => e
  | None, Some m => m
  | None, None => http_status_message r
  end.

(** A gateway's HTML error page. *)
Definition bad_gateway : Response json :=
  mkResponse 502 "Bad Gateway" (NotJson "Unexpected token < in JSON at position 0").

(** An error envelope whose [error] field is the empty string. *)
Definition empty_error_response : Response json :=
  mkResponse 500 "Internal Server Error"
    (Json (mkEnvelope false None (Some "") (Some "database unavailable") None)).

(** C2, as stated, fails on a non-2xx response whose body is not JSON: the
    call fails with the parser's error, not with the synthesized text. *)
Lemma C2_counterexample_not_json :
  ok bad_gateway = false
  /\ snd (request config0 (Responds bad_gateway) "GET" "/skills" None idle)
     = Throw (SyntaxError "Unexpected token < in JSON at position 0")
  /\ prescribed_message bad_gateway = "HTTP 502: Bad Gateway"
  /\ emessage (SyntaxError "Unexpected token < in JSON at position 0")
     <> prescribed_message bad_gateway.
Proof. repeat split. discriminate. Qed.

(** C2, as stated, also fails on an envelope whose [error] field is present
    but empty: the [message] field is used. *)
Lemma C2_empty_error_field :
  ok empty_error_response = false
  /\ snd (request config0 (Responds empty_error_response) "GET" "/skills" None idle)
     = Throw (Error "database unavailable")
  /\ prescribed_message empty_error_response = "".
Proof. repeat split. Qed.

(** C2, amended.  For a non-2xx response whose body parses as an envelope,
    [request] throws an [Error] whose message is the envelope's [error]
    field when that is a non-empty string, else its [message] field when
    that is a non-empty string, else ["HTTP <status>: <statusText>"]. *)
Theorem C2_error_message_priority :
  forall T config method path body (r : Response T) (envelope : AlfredApiResponse T) w,
    ok r = false -> json_body r = Json envelope ->
    exists msg,
      snd (request config (Responds r) method path body w) = Throw (Error msg)
      /\ (forall e, error envelope = Some e -> e <> "" -> msg = e)
      /\ (falsy_string (error envelope) ->
          forall m, message envelope = Some m -> m <> "" -> msg = m)
      /\ (falsy_string (error envelope) -> falsy_string (message envelope) ->
          msg = "HTTP " ++ String_number (status r) ++ ": " ++ statusText r).
Proof.
  intros T config method path body r envelope w Hok Hjson.
  exists (or_string (error envelope)
            (or_string (message envelope) (http_status_message r))).
  split; [apply request_non_2xx; assumption |]. repeat split.
  - intros e He Hne. rewrite He. now apply or_string_truthy.
  - intros Hfe m Hm Hne. rewrite (or_string_falsy _ Hfe), Hm. now apply or_string_truthy.
  - intros Hfe Hfm. rewrite (or_string_falsy _ Hfe), (or_string_falsy _ Hfm). reflexivity.
Qed.

Definition forbidden_response : Response json :=
  mkResponse 403 "Forbidden"
    (Json (mkEnvelope false None (Some "invalid API key") (Some "denied") None)).

Lemma C2_witness :
  exists msg,
    snd (request config0 (Responds forbidden_response) "GET" "/skills" None idle)
    = Throw (Error msg)
    /\ (forall e, Some "invalid API key" = Some e -> e <> "" -> msg = e)
    /\ (falsy_string (Some "invalid API key") ->
        forall m, Some "denied" = Some m -> m <> "" -> msg = m)
    /\ (falsy_string (Some "invalid API key") -> falsy_string (Some "denied") ->
        msg = "HTTP " ++ String_number 403 ++ ": " ++ "Forbidden").
Proof.
  apply (C2_error_message_priority config0 "GET" "/skills" None forbidden_response
           (envelope := mkEnvelope false None (Some "invalid API key") (Some "denied") None) idle);
    reflexivity.
Defined.

(** ** The deadline *)





(** With a timeout of one millisecond against an endpoint that never
    responds, from a world with nothing in flight. *)
Example timeout_one_millisecond :
  request (T:=json) (mkConfig "alf_0123456789" "http://localhost:3001/api/v1" 1)
    Silent "GET" "/skills" None idle
  = (mkWorld [outbound (mkConfig "alf_0123456789" "http://localhost:3001/api/v1" 1) "GET" "/skills" None]
       []
       [outbound (mkConfig "alf_0123456789" "http://localhost:3001/api/v1" 1) "GET" "/skills" None]
       None true,
     Throw (Error "Request timeout after 1ms")).
Proof. reflexivity. Qed.

(** ** The headers of the outbound call *)

(** C7, as stated, fails on a call without body: the content-type header
    is attached all the same. *)
Lemma C7_counterexample :
  calls (fst (request (T:=json) config0 Silent "GET" "/skills" None idle))
  = [outbound config0 "GET" "/skills" None]
  /\ body (outbound config0 "GET" "/skills" None) = None
  /\ In ("Content-Type", "application/json") (headers (outbound config0 "GET" "/skills" None)).
Proof. repeat split. simpl. right; left; reflexivity. Qed.

Lemma request_calls {T} config (net : FetchOutcome T) method path body w :
  calls (fst (request config net method path body w))
  = (calls w ++ [outbound config method path body])%list.
Proof. network_cases net; reflexivity. Qed.

(** C7, amended.  Every invocation of [request] hands exactly one call to
    [fetch]; that call goes to the base URL followed by the path and
    carries both the API-key header and the JSON content-type header,
    whether or not there is a body; its body is the JSON text of the
    [body] argument when that argument is truthy and is absent
    otherwise. *)
Theorem C7_headers_always_attached :
  forall T config (net : FetchOutcome T) meth path body_ w,
    exists req,
      calls (fst (request config net meth path body_ w)) = (calls w ++ [req])%list
      /\ url req = baseUrl config ++ path
      /\ method req = meth
      /\ headers req = [("X-API-Key", apiKey config); ("Content-Type", "application/json")]
      /\ (forall b, body_ = Some b -> truthy body_ = true -> body req = Some (JSON_stringify b))
      /\ (truthy body_ = false -> body req = None).
Proof.
  intros T config net meth path body_ w.
  exists (outbound config meth path body_).
  split; [apply request_calls |]. repeat split.
  - intros b -> Ht. simpl in *. rewrite Ht. reflexivity.
  - intros Hf. destruct body_ as [b |]; simpl in *; [rewrite Hf |]; reflexivity.
Qed.

(** ** Parsing comes before the status check *)

(** An error envelope that carries an empty [error] field and nothing
    else. *)
Definition blank_error_response : Response json :=
  mkResponse 500 "Internal Server Error"
    (Json (mkEnvelope false None (Some "") None None)).

(** C10, as stated, fails on an envelope that carries an empty [error]
    field: the synthesized message is produced although the field is
    there. *)
Lemma C10_counterexample :
  ok blank_error_response = false
  /\ snd (request config0 (Responds blank_error_response) "GET" "/skills" None idle)
     = Throw (Error "HTTP 500: Internal Server Error")
  /\ json_body blank_error_response = Json (mkEnvelope false None (Some "") None None)
  /\ error (mkEnvelope (T:=json) false None (Some "") None None) <> None.
Proof. repeat split. discriminate. Qed.

Lemma or_string_result (x : option string) (d : string) :
  or_string x d = d \/ x = Some (or_string x d).
Proof.
  destruct x as [s |]; simpl; [| left; reflexivity].
  destruct (truthy_string s); [right | left]; reflexivity.
Qed.

Lemma or_string_not_falsy (x : option string) (d : string) :
  ~ falsy_string x -> x = Some (or_string x d).
Proof.
  intros Hx. destruct (or_string_cases x d) as [(s & -> & _ & ->) | (Hf & _)].
  - reflexivity.
  - contradiction.
Qed.

Lemma falsy_string_dec (x : option string) : falsy_string x \/ ~ falsy_string x.
Proof.
  destruct x as [s |]; [| left; left; reflexivity].
  destruct (String.eqb_spec s "") as [-> | Hne].
  - left; right; reflexivity.
  - right; intros [H | H]; [discriminate | injection H as ->; now apply Hne].
Qed.

(** C10, amended.  [request] parses the body before it looks at the
    status: whatever the status, a body that is not JSON makes the call
    fail with the parser's error.  For a non-2xx response, the synthesized
    ["HTTP <status>: <statusText>"] error is thrown when the body parses
    and both the [error] and the [message] field of the envelope are
    absent or empty; and it is thrown only when the body parses and either
    both fields are absent or empty, or one of them is that very text. *)
Theorem C10_parse_before_status :
  forall T config method path body (r : Response T) w,
    (forall why, json_body r = NotJson why ->
       snd (request config (Responds r) method path body w) = Throw (SyntaxError why))
    /\ (forall envelope, ok r = false -> json_body r = Json envelope ->
          falsy_string (error envelope) -> falsy_string (message envelope) ->
          snd (request config (Responds r) method path body w)
          = Throw (Error (http_status_message r)))
    /\ (ok r = false ->
        snd (request config (Responds r) method path body w)
        = Throw (Error (http_status_message r)) ->
        exists envelope,
          json_body r = Json envelope
          /\ ((falsy_string (error envelope) /\ falsy_string (message envelope))
              \/ error envelope = Some (http_status_message r)
              \/ message envelope = Some (http_status_message r))).
Proof.
  intros T config method path body r w. repeat split.
  - intros why Hjson. now apply request_not_json.
  - intros envelope Hok Hjson Hfe Hfm. rewrite (request_non_2xx config method path body r w Hok Hjson).
    rewrite (or_string_falsy _ Hfe), (or_string_falsy _ Hfm). reflexivity.
  - intros Hok Hrun. destruct (json_body r) as [why | envelope] eqn:Hjson.
    + rewrite (request_not_json config method path body r w Hjson) in Hrun. discriminate.
    + exists envelope. split; [reflexivity |].
      rewrite (request_non_2xx config method path body r w Hok Hjson) in Hrun.
      injection Hrun as Hmsg.
      destruct (falsy_string_dec (error envelope)) as [Hfe | Hne].
      * rewrite (or_string_falsy _ Hfe) in Hmsg.
        destruct (falsy_string_dec (message envelope)) as [Hfm | Hnm].
        -- left; split; assumption.
        -- right; right. rewrite <- Hmsg. now apply or_string_not_falsy.
      * right; left. rewrite <- Hmsg. now apply or_string_not_falsy.
Qed.

Definition no_fields_response : Response json :=
  mkResponse 503 "Service Unavailable" (Json (mkEnvelope false None None None None)).

Lemma C10_witness :
  snd (request config0 (Responds bad_gateway) "GET" "/skills" None idle)
  = Throw (SyntaxError "Unexpected token < in JSON at position 0")
  /\ snd (request config0 (Responds no_fields_response) "GET" "/skills" None idle)
     = Throw (Error (http_status_message no_fields_response))
  /\ exists envelope,
       json_body no_fields_response = Json envelope
       /\ ((falsy_string (error envelope) /\ falsy_string (message envelope))
           \/ error envelope = Some (http_status_message no_fields_response)
           \/ message envelope = Some (http_status_message no_fields_response)).
Proof.
  split; [| split].
  - apply (proj1 (C10_parse_before_status config0 "GET" "/skills" None bad_gateway idle)).
    reflexivity.
  - apply (proj1 (proj2 (C10_parse_before_status config0 "GET" "/skills" None
                           no_fields_response idle))
             (mkEnvelope false None None None None));
      try reflexivity; left; reflexivity.
  - apply (proj2 (proj2 (C10_parse_before_status config0 "GET" "/skills" None
                           no_fields_response idle))); reflexivity.
Defined.

(** ** Patch payloads *)

(** The value that a property list gives to [k]: the value of the first
    property named [k], when it is defined. *)
Fixpoint supplied_value (k : string) (props : list (string * option json)) : option json :=
  match props with
  | [] => None
  | (k', v) :: rest => if String.eqb k k' then v else supplied_value k rest
  end.

(** What the caller of [alfred_patch_skill] supplied besides [skillId], in
    the words of the specification: each declared field with the value
    given for it, [None] for a field left out. *)
Definition patch_skill_supplied (input : PatchSkillInput.t) : list (string * option json) :=
  [("name", option_map JStr (PatchSkillInput.name input));
   ("description", option_map JStr (PatchSkillInput.description input));
   ("triggerType", option_map JStr (PatchSkillInput.triggerType input));
   ("steps", option_map json_of_steps (PatchSkillInput.steps input));
   ("connectionNames", option_map json_of_strings (PatchSkillInput.connectionNames input));
   ("isActive", option_map JBool (PatchSkillInput.isActive input))].

(** The same for [alfred_patch_connection], besides [connectionId]. *)
Definition patch_connection_supplied (input : PatchConnectionInput.t)
    : list (string * option json) :=
  [("name", option_map JStr (PatchConnectionInput.name input));
   ("type", option_map JStr (PatchConnectionInput.type_ input));
   ("config", PatchConnectionInput.config input);
   ("isActive", option_map JBool (PatchConnectionInput.isActive input))].

Lemma In_keys_object k props :
  In k (map fst (object props)) -> In k (map fst props).
Proof.
  induction props as [| [k' [v |]] rest IH]; simpl; intros H.
  - exact H.
  - destruct H as [H | H]; [left; exact H | right; apply IH; exact H].
  - right; apply IH; exact H.
Qed.

Lemma NoDup_keys_object props :
  NoDup (map fst props) -> NoDup (map fst (object props)).
Proof.
  induction props as [| [k [v |]] rest IH]; simpl; intros H.
  - constructor.
  - inversion H as [| ? ? Hnotin Hrest]; subst. constructor.
    + intros Hin. apply Hnotin. now apply In_keys_object.
    + now apply IH.
  - inversion H; subst. now apply IH.
Qed.

Lemma member_object k props :
  NoDup (map fst props) -> member k (object props) = supplied_value k props.
Proof.
  induction props as [| [k' [v |]] rest IH]; simpl; intros H.
  - reflexivity.
  - inversion H; subst. destruct (String.eqb k k'); [reflexivity | now apply IH].
  - inversion H as [| ? ? Hnotin Hrest]; subst.
    destruct (String.eqb_spec k k') as [-> | Hne]; [| now apply IH].
    destruct (member k' (object rest)) as [v |] eqn:Hm; [| reflexivity].
    exfalso. apply Hnotin. apply In_keys_object.
    clear - Hm. induction (object rest) as [| [k2 v2] o IHo]; simpl in *; [discriminate |].
    destruct (String.eqb_spec k' k2) as [-> | Hne]; [left; reflexivity | right; now apply IHo].
Qed.

Lemma patch_skill_updateFields_object input :
  patch_skill_updateFields input = object (patch_skill_supplied input).
Proof.
  destruct input as [skillId name description triggerType steps connectionNames isActive].
  destruct name, description, triggerType, steps, connectionNames, isActive; reflexivity.
Qed.

Lemma patch_connection_updateFields_object input :
  patch_connection_updateFields input = object (patch_connection_supplied input).
Proof.
  destruct input as [connectionId name type_ config isActive].
  destruct name, type_, config, isActive; reflexivity.
Qed.

Lemma patch_skill_supplied_NoDup input : NoDup (map fst (patch_skill_supplied input)).
Proof.
  simpl. repeat constructor; simpl; intuition discriminate.
Qed.

Lemma patch_connection_supplied_NoDup input :
  NoDup (map fst (patch_connection_supplied input)).
Proof.
  simpl. repeat constructor; simpl; intuition discriminate.
Qed.

(** The world a handler leaves behind has the one call of its client
    method added: nothing after [request] touches the world. *)
Ltac after_request net :=
  network_cases net; unfold response_result; try reflexivity;
  match goal with
  | |- context [json_body ?r] =>
      destruct (json_body r) as [? | [[] [] ? ? ?]]; destruct (ok r)
  end;
  reflexivity.

Lemma patch_skill_calls config net input w :
  calls (fst (alfred_patch_skill config net input w))
  = (calls w ++ [outbound config "PATCH" ("/skills/" ++ PatchSkillInput.skillId input)
                   (Some (JObj (patch_skill_updateFields input)))])%list.
Proof.
  unfold alfred_patch_skill, try_catch, bind, patchSkill. after_request net.
Qed.

Lemma patch_connection_calls config net input w :
  calls (fst (alfred_patch_connection config net input w))
  = (calls w ++ [outbound config "PATCH"
                   ("/connections/" ++ PatchConnectionInput.connectionId input)
                   (Some (JObj (patch_connection_updateFields input)))])%list.
Proof.
  unfold alfred_patch_connection, try_catch, bind, patchConnection. after_request net.
Qed.

(** C4.  For both patch tools and every input, the update payload holds a
    property exactly for each field the caller supplied, with the supplied
    value, and no other property, each at most once; and the one call the
    tool makes is a PATCH to the entity whose body is the JSON text of
    that payload. *)
Theorem C4_patch_payload_exact :
  (forall input,
      (forall k, member k (patch_skill_updateFields input)
                 = supplied_value k (patch_skill_supplied input))
      /\ NoDup (map fst (patch_skill_updateFields input))
      /\ forall config net w, exists req,
           calls (fst (alfred_patch_skill config net input w)) = (calls w ++ [req])%list
           /\ method req = "PATCH"
           /\ url req = baseUrl config ++ "/skills/" ++ PatchSkillInput.skillId input
           /\ body req = Some (JSON_stringify (JObj (patch_skill_updateFields input))))
  /\
  (forall input,
      (forall k, member k (patch_connection_updateFields input)
                 = supplied_value k (patch_connection_supplied input))
      /\ NoDup (map fst (patch_connection_updateFields input))
      /\ forall config net w, exists req,
           calls (fst (alfred_patch_connection config net input w)) = (calls w ++ [req])%list
           /\ method req = "PATCH"
           /\ url req = baseUrl config ++ "/connections/"
                          ++ PatchConnectionInput.connectionId input
           /\ body req = Some (JSON_stringify (JObj (patch_connection_updateFields input)))).
Proof.
  split; intros input.
  - rewrite patch_skill_updateFields_object. split; [| split].
    + intros k. apply member_object, patch_skill_supplied_NoDup.
    + apply NoDup_keys_object, patch_skill_supplied_NoDup.
    + intros config net w. eexists. split.
      * rewrite patch_skill_calls, patch_skill_updateFields_object. reflexivity.
      * repeat split.
  - rewrite patch_connection_updateFields_object. split; [| split].
    + intros k. apply member_object, patch_connection_supplied_NoDup.
    + apply NoDup_keys_object, patch_connection_supplied_NoDup.
    + intros config net w. eexists. split.
      * rewrite patch_connection_calls, patch_connection_updateFields_object. reflexivity.
      * repeat split.
Qed.

(** Patching only [name] sends only [name]. *)
Example patch_only_name :
  patch_skill_updateFields
    (PatchSkillInput.mk "abc" (Some "Renamed") None None None None None)
  = [("name", JStr "Renamed")]
  /\ JSON_stringify (JObj (patch_skill_updateFields
       (PatchSkillInput.mk "abc" (Some "Renamed") None None None None None)))
     = "{" ++ quote "name" ++ ":" ++ quote "Renamed" ++ "}".
Proof. split; reflexivity. Qed.

(** ** Query strings *)

(** *** Reading a query string back

    The [application/x-www-form-urlencoded] parser, which a server applies
    to the query string: split at [&], split each piece at its first [=],
    turn [+] into a space and [%XY] into the byte it names. *)

Definition hex_value (c : ascii) : option nat :=
  let n := nat_of_ascii c in
  if ((48 <=? n) && (n <=? 57))%nat then Some (n - 48)%nat
  else if ((65 <=? n) && (n <=? 70))%nat then Some (n - 55)%nat
  else if ((97 <=? n) && (n <=? 102))%nat then Some (n - 87)%nat
  else None.

Fixpoint urldecode (s : string) : string :=
  match s with
  | EmptyString => ""
  | String c rest =>
      if Ascii.eqb c "+" then String " " (urldecode rest)
      else if Ascii.eqb c "%" then
        match rest with
        | String h (String l rest') =>
            match hex_value h, hex_value l with
            | Some a, Some b => String (ascii_of_nat (16 * a + b)) (urldecode rest')
            | _, _ => String c (urldecode rest)
            end
        | _ => String c (urldecode rest)
        end
      else String c (urldecode rest)
  end.

(** The pieces of [s] between the occurrences of [sep]. *)
Fixpoint split_on (sep : ascii) (s : string) : list string :=
  match s with
  | EmptyString => [""]
  | String c rest =>
      if Ascii.eqb c sep then "" :: split_on sep rest
      else match split_on sep rest with
           | piece :: pieces => String c piece :: pieces
           | [] => [String c ""]
           end
  end.

(** [s] cut at its first [sep]; the second part is empty without one. *)
Fixpoint cut_at (sep : ascii) (s : string) : string * string :=
  match s with
  | EmptyString => ("", "")
  | String c rest =>
      if Ascii.eqb c sep then ("", rest)
      else let (a, b) := cut_at sep rest in (String c a, b)
  end.

Definition parse_pair (piece : string) : string * string :=
  let (k, v) := cut_at "=" piece in (urldecode k, urldecode v).

Definition parse_query (s : string) : URLSearchParams :=
  map parse_pair (filter (fun piece => truthy_string piece) (split_on "&" s)).

(** No byte of [s] is [c]. *)
Fixpoint free_of (c : ascii) (s : string) : bool :=
  match s with
  | EmptyString => true
  | String x rest => negb (Ascii.eqb x c) && free_of c rest
  end.

Lemma free_of_app c a b : free_of c (a ++ b) = free_of c a && free_of c b.
Proof.
  induction a as [| x a IH]; simpl; [reflexivity |].
  rewrite IH. apply andb_assoc.
Qed.

Lemma urlencode_byte_free c :
  free_of "&" (urlencode_byte c) = true /\ free_of "=" (urlencode_byte c) = true.
Proof. destruct c as [[] [] [] [] [] [] [] []]; split; reflexivity. Qed.

Lemma urlencode_free s :
  free_of "&" (urlencode s) = true /\ free_of "=" (urlencode s) = true.
Proof.
  induction s as [| c s [IH1 IH2]]; simpl; [split; reflexivity |].
  rewrite !free_of_app, IH1, IH2.
  destruct (urlencode_byte_free c) as [-> ->]. split; reflexivity.
Qed.

Lemma urldecode_byte c rest :
  urldecode (urlencode_byte c ++ rest) = String c (urldecode rest).
Proof. destruct c as [[] [] [] [] [] [] [] []]; reflexivity. Qed.

Lemma urldecode_urlencode s : urldecode (urlencode s) = s.
Proof.
  induction s as [| c s IH]; simpl; [reflexivity |].
  rewrite urldecode_byte, IH. reflexivity.
Qed.

Lemma cut_at_free sep a b :
  free_of sep a = true -> cut_at sep (a ++ String sep b) = (a, b).
Proof.
  induction a as [| x a IH]; simpl; intros H.
  - rewrite Ascii.eqb_refl. reflexivity.
  - apply andb_true_iff in H as [Hx Ha]. apply negb_true_iff in Hx.
    rewrite Hx, (IH Ha). reflexivity.
Qed.

Lemma split_on_free sep a :
  free_of sep a = true -> split_on sep a = [a].
Proof.
  induction a as [| x a IH]; simpl; intros H; [reflexivity |].
  apply andb_true_iff in H as [Hx Ha]. apply negb_true_iff in Hx.
  rewrite Hx, (IH Ha). reflexivity.
Qed.

Lemma split_on_cons sep a rest :
  free_of sep a = true ->
  split_on sep (a ++ String sep rest) = a :: split_on sep rest.
Proof.
  induction a as [| x a IH]; simpl; intros H.
  - rewrite Ascii.eqb_refl. reflexivity.
  - apply andb_true_iff in H as [Hx Ha]. apply negb_true_iff in Hx.
    rewrite Hx, (IH Ha). reflexivity.
Qed.

(** One serialized parameter. *)
Definition pair_text (kv : string * string) : string :=
  urlencode (fst kv) ++ "=" ++ urlencode (snd kv).

Lemma pair_text_free kv : free_of "&" (pair_text kv) = true.
Proof.
  unfold pair_text. rewrite !free_of_app.
  destruct (urlencode_free (fst kv)) as [-> _].
  destruct (urlencode_free (snd kv)) as [-> _]. reflexivity.
Qed.

Lemma pair_text_truthy kv : truthy_string (pair_text kv) = true.
Proof. unfold pair_text. destruct (urlencode (fst kv)); reflexivity. Qed.

Lemma parse_pair_text kv : parse_pair (pair_text kv) = kv.
Proof.
  unfold parse_pair, pair_text. simpl.
  rewrite cut_at_free by apply urlencode_free.
  rewrite !urldecode_urlencode. destruct kv; reflexivity.
Qed.

Lemma split_on_join (q : URLSearchParams) :
  q <> [] -> split_on "&" (join "&" (map pair_text q)) = map pair_text q.
Proof.
  induction q as [| kv q IH]; intros Hne; [contradiction |].
  destruct q as [| kv' q].
  - simpl. apply split_on_free, pair_text_free.
  - change (join "&" (map pair_text (kv :: kv' :: q)))
      with (pair_text kv ++ String "&" (join "&" (map pair_text (kv' :: q)))).
    rewrite split_on_cons by apply pair_text_free.
    rewrite IH by discriminate. reflexivity.
Qed.

Lemma toString_pairs q : toString q = join "&" (map pair_text q).
Proof. reflexivity. Qed.

(** Reading back what [toString] wrote gives the parameters that were
    appended, in order. *)
Lemma parse_query_toString (q : URLSearchParams) : parse_query (toString q) = q.
Proof.
  destruct q as [| kv q]; [reflexivity |].
  unfold parse_query. rewrite toString_pairs, split_on_join by discriminate.
  generalize (kv :: q). intros l. induction l as [| x l IH]; [reflexivity |].
  simpl. rewrite pair_text_truthy. simpl. rewrite parse_pair_text, IH. reflexivity.
Qed.

Lemma toString_truthy q : truthy_string (toString q) = negb (match q with [] => true | _ => false end).
Proof.
  destruct q as [| kv [| kv' q]]; [reflexivity | |].
  - simpl. apply pair_text_truthy.
  - rewrite toString_pairs.
    change (join "&" (map pair_text (kv :: kv' :: q)))
      with (pair_text kv ++ String "&" (join "&" (map pair_text (kv' :: q)))).
    destruct (pair_text kv); reflexivity.
Qed.

(** *** What the list-style methods put in the query *)

(** The parameters that the defined fields of a filter object give, in the
    order of the fields. *)
Definition defined_pairs (entries : Params) : URLSearchParams :=
  flat_map (fun kv => match snd kv with
                      | Some value => [(fst kv, String_ value)]
                      | None => []
                      end) entries.

(** The parameters of a query that are named [k]. *)
Definition params_named (k : string) (q : URLSearchParams) : URLSearchParams :=
  filter (fun kv => String.eqb (fst kv) k) q.

(** What follows the path in the URL. *)
Definition query_suffix (params : option Params) : string :=
  match build_query params with
  | [] => ""
  | q => "?" ++ toString q
  end.

Lemma build_query_fold entries acc :
  fold_left
    (fun query kv =>
       match snd kv with
       | Some value => append query (fst kv) (String_ value)
       | None => query
       end) entries acc
  = (acc ++ defined_pairs entries)%list.
Proof.
  revert acc. induction entries as [| [k [v |]] rest IH]; intros acc; simpl.
  - now rewrite app_nil_r.
  - rewrite IH. unfold append. now rewrite <- app_assoc.
  - apply IH.
Qed.

Lemma build_query_entries entries : build_query (Some entries) = defined_pairs entries.
Proof. unfold build_query. now rewrite build_query_fold. Qed.

Lemma params_named_absent k entries :
  ~ In k (map fst entries) -> params_named k (defined_pairs entries) = [].
Proof.
  induction entries as [| [k' v'] rest IH]; simpl; intros Hk; [reflexivity |].
  unfold params_named in *. rewrite filter_app, IH by tauto.
  rewrite app_nil_r. destruct v' as [x |]; simpl; [| reflexivity].
  destruct (String.eqb_spec k' k) as [-> | Hne]; [| reflexivity].
  exfalso; apply Hk; left; reflexivity.
Qed.

Lemma params_named_field k v entries :
  NoDup (map fst entries) -> In (k, v) entries ->
  params_named k (defined_pairs entries)
  = match v with Some x => [(k, String_ x)] | None => [] end.
Proof.
  induction entries as [| [k' v'] rest IH]; simpl; intros Hnd Hin; [contradiction |].
  inversion Hnd as [| ? ? Hnotin Hrest]; subst.
  unfold params_named in *. rewrite filter_app.
  destruct Hin as [Heq | Hin].
  - injection Heq as -> ->.
    fold (params_named k (defined_pairs rest)).
    rewrite (params_named_absent _ _ Hnotin), app_nil_r.
    destruct v as [x |]; simpl; [| reflexivity]. now rewrite String.eqb_refl.
  - rewrite (IH Hrest Hin).
    assert (Hne : k' <> k).
    { intros ->. apply Hnotin. apply (in_map fst) in Hin. exact Hin. }
    destruct v' as [x' |]; simpl; [| reflexivity].
    destruct (String.eqb_spec k' k); [contradiction | reflexivity].
Qed.

Lemma with_query_suffix path params : with_query path params = path ++ query_suffix params.
Proof.
  unfold with_query, query_suffix. rewrite toString_truthy.
  destruct (build_query params); reflexivity.
Qed.

Ltac client_calls net := network_cases net; reflexivity.

(** C5.  For every filter object given to a list-style method, the query
    string that the method builds, read back as form-urlencoded
    parameters, is the list of parameters appended by the loop; a field of
    the object whose value is defined gives exactly one parameter of its
    name, whose value is [String(value)]; a field whose value is
    [undefined], and a name that is no field of the object, give no
    parameter; and each of [listSkills], [listConnections],
    [listExecutions] and [getExecutionStats] makes a GET call to its path
    followed by [?] and that query string, or by nothing when there is no
    parameter. *)
Theorem C5_query_parameters :
  forall (params : option Params),
    parse_query (toString (build_query params)) = build_query params
    /\ (forall entries k v,
          params = Some entries -> NoDup (map fst entries) -> In (k, v) entries ->
          params_named k (build_query params)
          = match v with Some x => [(k, String_ x)] | None => [] end)
    /\ (forall k,
          match params with
          | Some entries => ~ In k (map fst entries)
          | None => True
          end ->
          params_named k (build_query params) = [])
    /\ (forall T config (net : FetchOutcome T) w,
          calls (fst (listSkills config net params w))
          = (calls w ++ [outbound config "GET" ("/skills" ++ query_suffix params) None])%list
          /\ calls (fst (listConnections config net params w))
             = (calls w ++ [outbound config "GET" ("/connections" ++ query_suffix params) None])%list
          /\ calls (fst (listExecutions config net params w))
             = (calls w ++ [outbound config "GET" ("/executions" ++ query_suffix params) None])%list
          /\ calls (fst (getExecutionStats config net params w))
             = (calls w ++ [outbound config "GET" ("/executions/stats" ++ query_suffix params) None])%list).
Proof.
  intros params. split; [apply parse_query_toString |]. split; [| split].
  - intros entries k v -> Hnd Hin. rewrite build_query_entries.
    now apply params_named_field.
  - intros k Hk. destruct params as [entries |]; [| reflexivity].
    rewrite build_query_entries. now apply params_named_absent.
  - intros T config net w.
    unfold listSkills, listConnections, listExecutions, getExecutionStats.
    rewrite !with_query_suffix. repeat split; apply request_calls.
Qed.

(** The filter of the specification's scenario,
    [listSkills({ isActive: true, limit: 10 })], with a field left
    undefined. *)
Definition active_first_ten : Params :=
  [("isActive", Some (PBool true)); ("triggerType", None); ("limit", Some (PNum 10))].

Lemma C5_witness :
  params_named "limit" (build_query (Some active_first_ten)) = [("limit", "10")]
  /\ params_named "triggerType" (build_query (Some active_first_ten)) = []
  /\ params_named "offset" (build_query (Some active_first_ten)) = [].
Proof.
  destruct (C5_query_parameters (Some active_first_ten)) as (_ & Hfield & Habsent & _).
  assert (Hnd : NoDup (map fst active_first_ten)).
  { simpl. repeat constructor; simpl; intuition discriminate. }
  split; [| split].
  - apply (Hfield active_first_ten "limit" (Some (PNum 10)) eq_refl Hnd).
    simpl. right; right; left; reflexivity.
  - apply (Hfield active_first_ten "triggerType" None eq_refl Hnd).
    simpl. right; left; reflexivity.
  - apply Habsent. simpl. intuition discriminate.
Defined.

Example active_first_ten_url :
  with_query "/skills" (Some active_first_ten) = "/skills?isActive=true&limit=10".
Proof. reflexivity. Qed.

Example no_filter_url :
  with_query "/skills" None = "/skills"
  /\ with_query "/skills" (Some [("isActive", None)]) = "/skills".
Proof. split; reflexivity. Qed.

(** ** Defaults of the list tools *)

Lemma list_skills_calls config net input w :
  calls (fst (alfred_list_skills config net input w))
  = (calls w ++ [outbound config "GET"
                   (with_query "/skills" (Some (list_skills_params input))) None])%list.
Proof. unfold alfred_list_skills, try_catch, bind, listSkills. after_request net. Qed.

Lemma list_connections_calls config net input w :
  calls (fst (alfred_list_connections config net input w))
  = (calls w ++ [outbound config "GET"
                   (with_query "/connections" (Some (list_connections_params input))) None])%list.
Proof. unfold alfred_list_connections, try_catch, bind, listConnections. after_request net. Qed.

Lemma list_executions_calls config net input w :
  calls (fst (alfred_list_executions config net input w))
  = (calls w ++ [outbound config "GET"
                   (with_query "/executions" (Some (list_executions_params input))) None])%list.
Proof. unfold alfred_list_executions, try_catch, bind, listExecutions. after_request net. Qed.

(** A query that carries [limit=50] and [offset=0], each once. *)
Definition default_page (q : URLSearchParams) : Prop :=
  params_named "limit" q = [("limit", "50")]
  /\ params_named "offset" q = [("offset", "0")].

Lemma list_skills_parse_defaults raw input :
  ListSkillsInput.parse raw = Some input ->
  ListSkillsInput.raw_limit raw = None -> ListSkillsInput.raw_offset raw = None ->
  ListSkillsInput.limit input = 50 /\ ListSkillsInput.offset input = 0.
Proof.
  unfold ListSkillsInput.parse. intros Hp Hl Ho. rewrite Hl, Ho in Hp.
  destruct (_ && _) in Hp; [| discriminate]. injection Hp as <-. split; reflexivity.
Qed.

Lemma list_connections_parse_defaults raw input :
  ListConnectionsInput.parse raw = Some input ->
  ListConnectionsInput.raw_limit raw = None -> ListConnectionsInput.raw_offset raw = None ->
  ListConnectionsInput.limit input = 50 /\ ListConnectionsInput.offset input = 0.
Proof.
  unfold ListConnectionsInput.parse. intros Hp Hl Ho. rewrite Hl, Ho in Hp.
  destruct (_ && _) in Hp; [| discriminate]. injection Hp as <-. split; reflexivity.
Qed.

Lemma list_executions_parse_defaults zod_uuid zod_datetime raw input :
  ListExecutionsInput.parse zod_uuid zod_datetime raw = Some input ->
  ListExecutionsInput.raw_limit raw = None -> ListExecutionsInput.raw_offset raw = None ->
  ListExecutionsInput.limit input = 50 /\ ListExecutionsInput.offset input = 0.
Proof.
  unfold ListExecutionsInput.parse. intros Hp Hl Ho. rewrite Hl, Ho in Hp.
  destruct (_ && _) in Hp; [| discriminate]. injection Hp as <-. split; reflexivity.
Qed.

Lemma list_skills_default_page input :
  ListSkillsInput.limit input = 50 -> ListSkillsInput.offset input = 0 ->
  default_page (build_query (Some (list_skills_params input))).
Proof.
  intros Hl Ho. rewrite build_query_entries. unfold list_skills_params. rewrite Hl, Ho.
  change (or_number 50 50) with 50. change (or_number 0 0) with 0.
  split; [apply (params_named_field "limit" (Some (PNum 50)))
         | apply (params_named_field "offset" (Some (PNum 0)))];
    solve [simpl; repeat constructor; simpl; intuition discriminate | simpl; tauto].
Qed.

Lemma list_connections_default_page input :
  ListConnectionsInput.limit input = 50 -> ListConnectionsInput.offset input = 0 ->
  default_page (build_query (Some (list_connections_params input))).
Proof.
  intros Hl Ho. rewrite build_query_entries. unfold list_connections_params. rewrite Hl, Ho.
  change (or_number 50 50) with 50. change (or_number 0 0) with 0.
  split; [apply (params_named_field "limit" (Some (PNum 50)))
         | apply (params_named_field "offset" (Some (PNum 0)))];
    solve [simpl; repeat constructor; simpl; intuition discriminate | simpl; tauto].
Qed.

Lemma list_executions_default_page input :
  ListExecutionsInput.limit input = 50 -> ListExecutionsInput.offset input = 0 ->
  default_page (build_query (Some (list_executions_params input))).
Proof.
  intros Hl Ho. rewrite build_query_entries. unfold list_executions_params. rewrite Hl, Ho.
  change (or_number 50 50) with 50. change (or_number 0 0) with 0.
  split; [apply (params_named_field "limit" (Some (PNum 50)))
         | apply (params_named_field "offset" (Some (PNum 0)))];
    solve [simpl; repeat constructor; simpl; intuition discriminate | simpl; tauto].
Qed.

Lemma default_page_suffix params :
  default_page (build_query params) ->
  query_suffix params = "?" ++ toString (build_query params).
Proof.
  intros [Hl _]. unfold query_suffix. destruct (build_query params); [discriminate | reflexivity].
Qed.

(** The call of a list tool whose query carries the default page. *)
Definition default_page_call (config : AlfredClientConfig) (path : string)
    (w : World) : Prop :=
  exists q,
    calls w = [mkRequest (baseUrl config ++ path ++ "?" ++ toString q) "GET"
                 [("X-API-Key", apiKey config); ("Content-Type", "application/json")]
                 None true]
    /\ parse_query (toString q) = q
    /\ default_page q.

(** C6.  When the caller of [alfred_list_skills], [alfred_list_connections]
    or [alfred_list_executions] leaves out [limit] and [offset] and the
    arguments pass the tool's schema, the one call that the tool makes
    carries [limit=50] and [offset=0] in its query string, each exactly
    once. *)
Theorem C6_list_defaults :
  forall config,
    (forall net raw w res,
        ListSkillsInput.raw_limit raw = None -> ListSkillsInput.raw_offset raw = None ->
        invoke_list_skills config net raw = Some (w, res) ->
        default_page_call config "/skills" w)
    /\ (forall net raw w res,
          ListConnectionsInput.raw_limit raw = None ->
          ListConnectionsInput.raw_offset raw = None ->
          invoke_list_connections config net raw = Some (w, res) ->
          default_page_call config "/connections" w)
    /\ (forall zod_uuid zod_datetime net raw w res,
          ListExecutionsInput.raw_limit raw = None ->
          ListExecutionsInput.raw_offset raw = None ->
          invoke_list_executions zod_uuid zod_datetime config net raw = Some (w, res) ->
          default_page_call config "/executions" w).
Proof.
  intros config. split; [| split].
  - intros net raw w res Hl Ho Hrun.
    unfold invoke_list_skills, invoke in Hrun.
    destruct (ListSkillsInput.parse raw) as [input |] eqn:Hp; [| discriminate].
    injection Hrun as Hrun_eq.
    destruct (list_skills_parse_defaults _ Hp Hl Ho) as [Hl' Ho'].
    pose proof (list_skills_default_page _ Hl' Ho') as Hq.
    exists (build_query (Some (list_skills_params input))).
    split; [| split; [apply parse_query_toString | exact Hq]].
    replace w with (fst (alfred_list_skills config net input idle))
      by (now rewrite Hrun_eq).
    rewrite list_skills_calls, with_query_suffix, (default_page_suffix _ Hq). reflexivity.
  - intros net raw w res Hl Ho Hrun.
    unfold invoke_list_connections, invoke in Hrun.
    destruct (ListConnectionsInput.parse raw) as [input |] eqn:Hp; [| discriminate].
    injection Hrun as Hrun_eq.
    destruct (list_connections_parse_defaults _ Hp Hl Ho) as [Hl' Ho'].
    pose proof (list_connections_default_page _ Hl' Ho') as Hq.
    exists (build_query (Some (list_connections_params input))).
    split; [| split; [apply parse_query_toString | exact Hq]].
    replace w with (fst (alfred_list_connections config net input idle))
      by (now rewrite Hrun_eq).
    rewrite list_connections_calls, with_query_suffix, (default_page_suffix _ Hq). reflexivity.
  - intros zod_uuid zod_datetime net raw w res Hl Ho Hrun.
    unfold invoke_list_executions, invoke in Hrun.
    destruct (ListExecutionsInput.parse zod_uuid zod_datetime raw) as [input |] eqn:Hp;
      [| discriminate].
    injection Hrun as Hrun_eq.
    destruct (list_executions_parse_defaults _ _ _ Hp Hl Ho) as [Hl' Ho'].
    pose proof (list_executions_default_page _ Hl' Ho') as Hq.
    exists (build_query (Some (list_executions_params input))).
    split; [| split; [apply parse_query_toString | exact Hq]].
    replace w with (fst (alfred_list_executions config net input idle))
      by (now rewrite Hrun_eq).
    rewrite list_executions_calls, with_query_suffix, (default_page_suffix _ Hq). reflexivity.
Qed.

Definition no_arguments_skills : ListSkillsInput.raw :=
  ListSkillsInput.mkRaw None None None None None None None.
Definition no_arguments_connections : ListConnectionsInput.raw :=
  ListConnectionsInput.mkRaw None None None None None None None None.
Definition no_arguments_executions : ListExecutionsInput.raw :=
  ListExecutionsInput.mkRaw None None None None None None None None None.

Lemma C6_witness :
  default_page_call config0 "/skills"
    (fst (alfred_list_skills config0 Silent list_all_skills idle))
  /\ default_page_call config0 "/connections"
       (fst (alfred_list_connections config0 Silent
               (ListConnectionsInput.mk None None None None 50 0 None None) idle))
  /\ default_page_call config0 "/executions"
       (fst (alfred_list_executions config0 Silent
               (ListExecutionsInput.mk None None None None None 50 0 None None) idle)).
Proof.
  destruct (C6_list_defaults config0) as (Hskills & Hconnections & Hexecutions).
  split; [| split].
  - apply (Hskills Silent no_arguments_skills _
             (snd (alfred_list_skills config0 Silent list_all_skills idle)));
      reflexivity.
  - apply (Hconnections Silent no_arguments_connections _
             (snd (alfred_list_connections config0 Silent
                     (ListConnectionsInput.mk None None None None 50 0 None None) idle)));
      reflexivity.
  - apply (Hexecutions (fun _ => true) (fun _ => true) Silent no_arguments_executions _
             (snd (alfred_list_executions config0 Silent
                     (ListExecutionsInput.mk None None None None None 50 0 None None) idle)));
      reflexivity.
Defined.

Example list_skills_default_url :
  map url (calls (fst (alfred_list_skills config0 Silent list_all_skills idle)))
  = ["http://localhost:3001/api/v1/skills?limit=50&offset=0"].
Proof. reflexivity. Qed.

(** ** No exception crosses the tool boundary *)

(** A structured result: one content item, of type text. *)
Definition structured (r : ToolResult) : Prop :=
  exists t, content r = [mkContent "text" t].

Lemma structured_text t : structured (text_result t).
Proof. exists t. reflexivity. Qed.

Lemma structured_error t : structured (error_result t).
Proof. exists t. reflexivity. Qed.

Lemma returns_caught_failure what e : returns structured (caught_failure what e).
Proof. apply returns_ret, structured_text. Qed.

Lemma returns_caught_text what e : returns structured (caught_text what e).
Proof. apply returns_ret, structured_text. Qed.

Lemma returns_auth_caught what e : returns structured (auth_caught what e).
Proof. apply returns_ret, structured_error. Qed.

Lemma structured_envelope_failure {T} (response : AlfredApiResponse T) fallback :
  structured (envelope_failure response fallback).
Proof. apply structured_text. Qed.

Lemma structured_auth_failure {T} (response : AlfredApiResponse T) fallback :
  structured (auth_failure response fallback).
Proof. apply structured_text. Qed.

Create HintDb tool_boundary.
#[local] Hint Resolve structured_text structured_error structured_envelope_failure
  structured_auth_failure : tool_boundary.
#[local] Hint Resolve returns_caught_failure returns_caught_text returns_auth_caught
  : tool_boundary.

(** The body of a handler: the one call of the client, then a continuation
    that returns a structured result or throws. *)
Ltac handler_body :=
  apply ends_bind with (Q := fun _ => True);
  [ apply ends_request
  | intros response _;
    repeat match goal with
           | |- ends _ (if ?b then _ else _) => destruct b
           | |- ends _ (match ?x with _ => _ end) => destruct x
           | |- ends _ (ret _) => apply ends_ret; auto with tool_boundary
           | |- ends _ (throw _) => apply ends_throw
           | |- ends _ (bind (data_of _ _) _) =>
               apply ends_bind with (Q := fun _ => True);
               [ apply ends_data_of; intros; exact I | intros ? _ ]
           end ].

(** C9.  Every registered tool, whatever the network does with its single
    call (a response of any status and body, a connection failure, or no
    response before the deadline), returns a structured result: its
    handler neither throws nor leaves its promise pending. *)
Theorem C9_no_exception_escapes :
  forall config (c : ToolCall) w,
    exists r, snd (run_tool config c w) = Return r /\ structured r.
Proof.
  intros config c w.
  assert (H : returns structured (run_tool config c)); [| exact (H w)].
  destruct c; simpl;
    apply returns_try_catch; auto with tool_boundary;
    unfold listSkills, getSkill, createSkill, updateSkill, patchSkill, deleteSkill,
      listConnections, getConnection, createConnection, updateConnection,
      patchConnection, deleteConnection, listExecutions, getExecution,
      getExecutionTrace, getExecutionStats, deleteExecution,
      createApiKey, listApiKeys, deleteApiKey;
    handler_body.
Qed.

(** The three outcomes of the one call of [alfred_get_execution], and what
    the tool returns for each. *)
Example get_execution_outcomes :
  snd (alfred_get_execution config0 Silent "e1" idle)
  = Return (text_result "Failed to get execution: Request timeout after 30000ms")
  /\ snd (alfred_get_execution config0 (Fails (mkError "FetchError" "connect ECONNREFUSED")) "e1" idle)
     = Return (text_result "Failed to get execution: connect ECONNREFUSED")
  /\ snd (alfred_get_execution config0
            (Responds (mkResponse 200 "OK" (Json (mkEnvelope true None None None None)))) "e1" idle)
     = Return (text_result
         "Failed to get execution: Cannot read properties of undefined (reading 'id')").
Proof. repeat split. Qed.

(** ** The secret of an API key *)

Lemma includes_trans (a b c : string) : includes a b -> includes b c -> includes a c.
Proof.
  intros (p1 & q1 & ->) (p2 & q2 & ->).
  exists (p1 ++ p2), (q2 ++ q1). now rewrite !append_assoc.
Qed.

Lemma includes_prefix (s post : string) : includes (s ++ post) s.
Proof. exists "", post. reflexivity. Qed.

Lemma includes_after (pre t s : string) : includes t s -> includes (pre ++ t) s.
Proof.
  intros (p & q & ->). exists (pre ++ p), q. now rewrite !append_assoc.
Qed.

Lemma includes_before (t post s : string) : includes t s -> includes (t ++ post) s.
Proof.
  intros (p & q & ->). exists p, (q ++ post). now rewrite !append_assoc.
Qed.

Lemma includes_join sep parts p : In p parts -> includes (join sep parts) p.
Proof.
  induction parts as [| x rest IH]; intros Hin; [contradiction |].
  destruct rest as [| y rest].
  - destruct Hin as [-> | []]. apply includes_refl.
  - change (join sep (x :: y :: rest)) with (x ++ sep ++ join sep (y :: rest)).
    destruct Hin as [-> | Hin].
    + apply includes_prefix.
    + apply includes_after, includes_after, IH, Hin.
Qed.

(** [s] is a prefix of [t]. *)
Fixpoint starts_with (t s : string) {struct s} : bool :=
  match s, t with
  | EmptyString, _ => true
  | String a s', String b t' => Ascii.eqb a b && starts_with t' s'
  | String _ _, EmptyString => false
  end.

(** [t.includes(s)], computed. *)
Fixpoint includesb (t s : string) : bool :=
  starts_with t s
  || match t with
     | EmptyString => false
     | String _ t' => includesb t' s
     end.

Lemma starts_with_app s post : starts_with (s ++ post) s = true.
Proof.
  induction s as [| a s IH]; simpl; [reflexivity |].
  now rewrite Ascii.eqb_refl, IH.
Qed.

Lemma includesb_unfold t s :
  includesb t s
  = starts_with t s
    || match t with
       | EmptyString => false
       | String _ t' => includesb t' s
       end.
Proof. destruct t; reflexivity. Qed.

Lemma includesb_complete t s : includes t s -> includesb t s = true.
Proof.
  intros (pre & post & ->). induction pre as [| a pre IH].
  - simpl. rewrite includesb_unfold, starts_with_app. reflexivity.
  - simpl. rewrite IH. apply orb_true_r.
Qed.

(** The text of a successful creation shows the key and the warning. *)
Lemma create_api_key_text_shows_key apiKey :
  includes (create_api_key_text apiKey) ("- Key: " ++ CreateApiKeyResponse.key apiKey)
  /\ includes (create_api_key_text apiKey) (CreateApiKeyResponse.key apiKey)
  /\ includes (create_api_key_text apiKey)
       "WARNING: This is the only time the API key will be displayed. Save it securely immediately.".
Proof.
  unfold create_api_key_text. split; [| split].
  - do 14 apply includes_after.
    eexists "", _. simpl. reflexivity.
  - do 15 apply includes_after. apply includes_prefix.
  - do 3 apply includes_after. apply includes_prefix.
Qed.

(** A key reduced to its declared properties. *)
Definition declared_only (key : ApiKey.t) : ApiKey.t :=
  ApiKey.mk (ApiKey.id key) (ApiKey.name key) (ApiKey.keyPrefix key)
    (ApiKey.description key) (ApiKey.isActive key) (ApiKey.lastUsedAt key)
    (ApiKey.expiresAt key) (ApiKey.createdAt key) (ApiKey.updatedAt key) [].

(** The network behaviour with every listed key reduced to its declared
    properties: two behaviours with the same reduction differ only in
    what the keys carry besides those, such as a full key value. *)
Definition without_undeclared (net : FetchOutcome (list ApiKey.t))
    : FetchOutcome (list ApiKey.t) :=
  let reduced (r : Response (list ApiKey.t)) :=
    mkResponse (status r) (statusText r)
      match json_body r with
      | Json envelope =>
          Json (mkEnvelope (success envelope)
                  (option_map (map declared_only) (data envelope))
                  (error envelope) (message envelope) (meta envelope))
      | NotJson why => NotJson why
      end in
  match net with
  | Responds r => Responds (reduced r)
  | Fails e => Fails e
  | Silent => Silent
  | RespondsAfter ms r => RespondsAfter ms (reduced r)
  | FailsAfter ms e => FailsAfter ms e
  end.

Lemma api_key_entry_declared index key :
  api_key_entry index (declared_only key) = api_key_entry index key.
Proof. reflexivity. Qed.

Lemma map_indexed_declared start apiKeys :
  map_indexed api_key_entry start (map declared_only apiKeys)
  = map_indexed api_key_entry start apiKeys.
Proof.
  revert start. induction apiKeys as [| key rest IH]; intros start; simpl; [reflexivity |].
  now rewrite IH.
Qed.

Lemma list_api_keys_text_declared apiKeys :
  list_api_keys_text (map declared_only apiKeys) = list_api_keys_text apiKeys.
Proof.
  unfold list_api_keys_text. now rewrite map_indexed_declared, length_map.
Qed.

Lemma list_api_keys_declared config net w :
  alfred_list_api_keys config (without_undeclared net) w
  = alfred_list_api_keys config net w.
Proof.
  assert (Hresponse : forall r,
             alfred_list_api_keys config (without_undeclared (Responds r)) w
             = alfred_list_api_keys config (Responds r) w).
  { intros r. unfold alfred_list_api_keys, try_catch, bind, listApiKeys.
    simpl without_undeclared.
    rewrite !request_Responds. unfold response_result, ok. simpl.
    destruct (json_body r) as [why | [[] [apiKeys |] err msg mt]]; simpl;
      try reflexivity;
      destruct ((200 <=? status r) && (status r <=? 299)); simpl; try reflexivity.
    rewrite length_map, list_api_keys_text_declared. reflexivity. }
  destruct net as [r | e | | ms r | ms e]; try reflexivity.
  - apply Hresponse.
  - specialize (Hresponse r). revert Hresponse.
    unfold alfred_list_api_keys, try_catch, bind, listApiKeys. simpl without_undeclared.
    rewrite !request_RespondsAfter.
    destruct (ms <=? timer_delay (timeout config)); [intros H; exact H | reflexivity].
Qed.

Lemma In_map_indexed {A B} (f : nat -> A -> B) x l :
  In x l -> forall start, exists i, In (f i x) (map_indexed f start l).
Proof.
  induction l as [| y rest IH]; intros Hin start; [contradiction |].
  destruct Hin as [-> | Hin].
  - exists start. left; reflexivity.
  - destruct (IH Hin (S start)) as [i Hi]. exists i. right; exact Hi.
Qed.

Lemma api_key_entry_shows index key :
  includes (api_key_entry index key) ("Prefix: " ++ ApiKey.keyPrefix key)
  /\ includes (api_key_entry index key) (ApiKey.name key).
Proof.
  unfold api_key_entry. split.
  - do 7 apply includes_after. eexists "   ", _. simpl. reflexivity.
  - do 2 apply includes_after. apply includes_prefix.
Qed.

Lemma list_api_keys_text_shows apiKeys key :
  In key apiKeys ->
  includes (list_api_keys_text apiKeys) ("Prefix: " ++ ApiKey.keyPrefix key)
  /\ includes (list_api_keys_text apiKeys) (ApiKey.name key).
Proof.
  intros Hin. destruct (In_map_indexed api_key_entry key apiKeys Hin 0%nat) as [i Hi].
  pose proof (includes_join (nl ++ nl) _ _ Hi) as Hjoin.
  destruct (api_key_entry_shows i key) as [Hprefix Hname].
  unfold list_api_keys_text.
  split; do 5 apply includes_after; apply includes_before;
    eapply includes_trans; eauto.
Qed.

(** C8.  A successful [alfred_create_api_key] returns a text that contains
    the full key and the one-time-display warning.  The result of
    [alfred_list_api_keys] is the same for any two behaviours of the remote
    service that agree on the declared properties of the keys (id, name,
    prefix, description, flags and dates): nothing else that a key object
    carries, a full key value in particular, reaches the result; and a
    listing that is not empty shows the name and the prefix of every
    key. *)
Theorem C8_secret_shown_once :
  (forall config params (r : Response CreateApiKeyResponse.t) envelope apiKey w,
      ok r = true -> json_body r = Json envelope ->
      success envelope = true -> data envelope = Some apiKey ->
      exists t,
        snd (alfred_create_api_key config (Responds r) params w) = Return (text_result t)
        /\ includes t ("- Key: " ++ CreateApiKeyResponse.key apiKey)
        /\ includes t (CreateApiKeyResponse.key apiKey)
        /\ includes t
             "WARNING: This is the only time the API key will be displayed. Save it securely immediately.")
  /\ (forall config net net' w,
        without_undeclared net = without_undeclared net' ->
        alfred_list_api_keys config net w = alfred_list_api_keys config net' w)
  /\ (forall config (r : Response (list ApiKey.t)) envelope apiKeys w,
        ok r = true -> json_body r = Json envelope ->
        success envelope = true -> data envelope = Some apiKeys -> apiKeys <> [] ->
        exists t,
          snd (alfred_list_api_keys config (Responds r) w) = Return (text_result t)
          /\ forall key, In key apiKeys ->
               includes t ("Prefix: " ++ ApiKey.keyPrefix key)
               /\ includes t (ApiKey.name key)).
Proof.
  split; [| split].
  - intros config params r envelope apiKey w Hok Hjson Hs Hd.
    exists (create_api_key_text apiKey). split.
    + unfold alfred_create_api_key, try_catch, bind, createApiKey.
      rewrite request_Responds. unfold response_result. rewrite Hjson, Hok, Hs, Hd.
      reflexivity.
    + apply create_api_key_text_shows_key.
  - intros config net net' w Heq.
    rewrite <- (list_api_keys_declared config net), <- (list_api_keys_declared config net').
    now rewrite Heq.
  - intros config r envelope apiKeys w Hok Hjson Hs Hd Hne.
    exists (list_api_keys_text apiKeys). split.
    + unfold alfred_list_api_keys, try_catch, bind, listApiKeys.
      rewrite request_Responds. unfold response_result. rewrite Hjson, Hok, Hs, Hd.
      destruct apiKeys; [contradiction | reflexivity].
    + intros key Hin. now apply list_api_keys_text_shows.
Qed.

(** *** The scenario of the specification *)

Definition created_key (n secret : string) : CreateApiKeyResponse.t :=
  CreateApiKeyResponse.mk ("key-" ++ n) secret ("ci-" ++ n) "alf_live"
    Undefined Undefined true "2026-01-01T00:00:00.000Z" None.

(** A listed key that, against its declared type, carries [secret]. *)
Definition listed_key (n secret : string) : ApiKey.t :=
  ApiKey.mk ("key-" ++ n) ("ci-" ++ n) "alf_live" Undefined true Undefined Undefined
    "2026-01-01T00:00:00.000Z" "2026-01-01T00:00:00.000Z" [("key", JStr secret)].

Definition secret1 : string := "alf_live_4f9a1c27d3b8e6f0".
Definition secret2 : string := "alf_live_b71e05c9a2d4f683".

Definition created (secret n : string) : FetchOutcome CreateApiKeyResponse.t :=
  Responds (mkResponse 201 "Created"
    (Json (mkEnvelope true (Some (created_key n secret)) None None None))).

Definition listing (keys : list ApiKey.t) : FetchOutcome (list ApiKey.t) :=
  Responds (mkResponse 200 "OK" (Json (mkEnvelope true (Some keys) None None None))).

Definition text_of (run : World * Result ToolResult) : string :=
  match snd run with
  | Return r => result_text r
  | _ => ""
  end.

Lemma C8_witness :
  (exists t,
      snd (alfred_create_api_key config0 (created secret1 "1")
             (CreateApiKeyInput.mk "ci-1" None None) idle) = Return (text_result t)
      /\ includes t ("- Key: " ++ secret1)
      /\ includes t secret1
      /\ includes t
           "WARNING: This is the only time the API key will be displayed. Save it securely immediately.")
  /\ alfred_list_api_keys config0 (listing [listed_key "1" secret1; listed_key "2" secret2]) idle
     = alfred_list_api_keys config0 (listing [listed_key "1" ""; listed_key "2" ""]) idle
  /\ (exists t,
        snd (alfred_list_api_keys config0
               (listing [listed_key "1" secret1; listed_key "2" secret2]) idle)
        = Return (text_result t)
        /\ forall key, In key [listed_key "1" secret1; listed_key "2" secret2] ->
             includes t ("Prefix: " ++ ApiKey.keyPrefix key)
             /\ includes t (ApiKey.name key)).
Proof.
  destruct C8_secret_shown_once as (Hcreate & Hlist & Hshown).
  split; [| split].
  - apply (Hcreate config0 (CreateApiKeyInput.mk "ci-1" None None)
             (mkResponse 201 "Created"
                (Json (mkEnvelope true (Some (created_key "1" secret1)) None None None)))
             (mkEnvelope true (Some (created_key "1" secret1)) None None None)
             (created_key "1" secret1) idle); reflexivity.
  - apply Hlist. reflexivity.
  - apply (Hshown config0
             (mkResponse 200 "OK"
                (Json (mkEnvelope true
                         (Some [listed_key "1" secret1; listed_key "2" secret2])
                         None None None)))
             (mkEnvelope true (Some [listed_key "1" secret1; listed_key "2" secret2])
                None None None)
             [listed_key "1" secret1; listed_key "2" secret2] idle);
      try reflexivity; discriminate.
Defined.

(** Two creations and a listing: each creation shows its own secret, the
    listing shows neither, even though the remote service sent both. *)
Example secret_exposure_scenario :
  includesb (text_of (alfred_create_api_key config0 (created secret1 "1")
                        (CreateApiKeyInput.mk "ci-1" None None) idle)) secret1 = true
  /\ includesb (text_of (alfred_create_api_key config0 (created secret2 "2")
                           (CreateApiKeyInput.mk "ci-2" None None) idle)) secret2 = true
  /\ ~ includes (text_of (alfred_list_api_keys config0
                            (listing [listed_key "1" secret1; listed_key "2" secret2]) idle))
                secret1
  /\ ~ includes (text_of (alfred_list_api_keys config0
                            (listing [listed_key "1" secret1; listed_key "2" secret2]) idle))
                secret2.
Proof.
  split; [vm_compute; reflexivity |]. split; [vm_compute; reflexivity |].
  split; intros H; apply includesb_complete in H; vm_compute in H; discriminate.
Qed.

(** ** Application-level failures at every tool *)







(** * Further properties of the client and the handlers *)

(** ** Network failures and the timer *)

(** A connection failure makes [request] throw the underlying error as it
    is; only an error named [AbortError] is replaced, by the timeout
    error, whatever aborted it. *)
Theorem network_failure_rethrown :
  forall T config (e : JsError) method path body w,
    (ename e <> "AbortError" ->
     snd (request (T:=T) config (Fails e) method path body w) = Throw e)
    /\ (ename e = "AbortError" ->
        snd (request (T:=T) config (Fails e) method path body w)
        = Throw (Error ("Request timeout after " ++ String_number (timeout config) ++ "ms"))).
Proof.
  intros T config e method path body w. rewrite request_Fails. simpl. split; intros H.
  - destruct (String.eqb_spec (ename e) "AbortError"); [contradiction | reflexivity].
  - rewrite H. reflexivity.
Qed.

Definition connection_refused : JsError :=
  mkError "FetchError"
    "request to http://localhost:3001/api/v1/skills failed, reason: connect ECONNREFUSED".

Lemma network_failure_rethrown_witness :
  snd (request (T:=json) config0 (Fails connection_refused) "GET" "/skills" None idle)
  = Throw connection_refused
  /\ snd (request (T:=json) config0 (Fails AbortError) "GET" "/skills" None idle)
     = Throw (Error ("Request timeout after " ++ String_number (timeout config0) ++ "ms")).
Proof.
  split.
  - apply (proj1 (network_failure_rethrown json config0 connection_refused
                    "GET" "/skills" None idle)). discriminate.
  - apply (proj2 (network_failure_rethrown json config0 AbortError
                    "GET" "/skills" None idle)). reflexivity.
Defined.

(** [clearTimeout] runs only once a response has arrived: after a response
    no timer is armed, whereas after a connection failure the timer armed
    with the configured timeout is still armed when [request] throws; in
    neither case has the controller been aborted. *)
Theorem timer_cleared_only_on_response :
  forall T config method path body w,
    (forall r : Response T,
        timer (fst (request config (Responds r) method path body w)) = None
        /\ aborted (fst (request config (Responds r) method path body w)) = false)
    /\ (forall e,
          timer (fst (request (T:=T) config (Fails e) method path body w))
          = Some (timeout config)
          /\ aborted (fst (request (T:=T) config (Fails e) method path body w)) = false).
Proof.
  intros T config method path body w. split.
  - intros r. rewrite request_Responds. split; reflexivity.
  - intros e. rewrite request_Fails. split; reflexivity.
Qed.

(** ** The one call of a tool *)

(** A computation that leaves the world as it is. *)
Definition pure {A} (c : M A) : Prop := forall w, fst (c w) = w.

Lemma pure_ret {A} (a : A) : pure (ret a).
Proof. intros w; reflexivity. Qed.

Lemma pure_throw {A} (e : JsError) : pure (@throw A e).
Proof. intros w; reflexivity. Qed.

Lemma pure_bind {A B} (c : M A) (k : A -> M B) :
  pure c -> (forall a, pure (k a)) -> pure (bind c k).
Proof.
  intros Hc Hk w. unfold bind. specialize (Hc w).
  destruct (c w) as [w' [a | e |]]; simpl in *; subst; [apply Hk | reflexivity | reflexivity].
Qed.

Lemma pure_data_of {T} (response : AlfredApiResponse T) prop : pure (data_of response prop).
Proof. unfold data_of. destruct (data response); [apply pure_ret | apply pure_throw]. Qed.

(** The world after a handler is the world after its client call, when
    nothing else in the handler touches the world. *)
Lemma world_after_handler {A B} (c : M A) (k : A -> M B) (h : JsError -> M B) w :
  (forall a, pure (k a)) -> (forall e, pure (h e)) ->
  fst (try_catch (bind c k) h w) = fst (c w).
Proof.
  intros Hk Hh. unfold try_catch, bind.
  destruct (c w) as [w' [a | e |]]; simpl.
  - specialize (Hk a w'). destruct (k a w') as [w'' [b | e |]]; simpl in *; subst.
    + reflexivity.
    + apply Hh.
    + reflexivity.
  - apply Hh.
  - reflexivity.
Qed.

Ltac pure_steps :=
  repeat match goal with
         | |- forall _, _ => intro
         | |- pure (caught_failure _ _) => apply pure_ret
         | |- pure (caught_text _ _) => apply pure_ret
         | |- pure (auth_caught _ _) => apply pure_ret
         | |- pure (ret _) => apply pure_ret
         | |- pure (throw _) => apply pure_throw
         | |- pure (data_of _ _) => apply pure_data_of
         | |- pure (bind _ _) => apply pure_bind
         | |- pure (if ?b then _ else _) => destruct b
         | |- pure (match ?x with _ => _ end) => destruct x
         end.

(** The world that a tool leaves behind is the one its client call
    leaves. *)
Ltac tool_world :=
  unfold alfred_list_skills, alfred_get_skill, alfred_create_skill, alfred_update_skill,
    alfred_patch_skill, alfred_delete_skill, alfred_list_connections,
    alfred_get_connection, alfred_create_connection, alfred_update_connection,
    alfred_patch_connection, alfred_delete_connection, alfred_list_executions,
    alfred_get_execution, alfred_get_execution_trace, alfred_get_execution_stats,
    alfred_delete_execution, alfred_create_api_key, alfred_list_api_keys,
    alfred_delete_api_key;
  rewrite world_after_handler by pure_steps;
  unfold listSkills, getSkill, createSkill, updateSkill, patchSkill, deleteSkill,
    listConnections, getConnection, createConnection, updateConnection,
    patchConnection, deleteConnection, listExecutions, getExecution,
    getExecutionTrace, getExecutionStats, deleteExecution,
    createApiKey, listApiKeys, deleteApiKey.

Lemma request_in_flight {T} config (net : FetchOutcome T) method path body w :
  in_flight (fst (request config net method path body w)) = in_flight w.
Proof. network_cases net; reflexivity. Qed.

(** The file that registers a tool. *)
Inductive Registrar : Type :=
| SkillsTools
| ConnectionsTools
| ExecutionsTools
| AuthTools.

Definition registered_by (c : ToolCall) : Registrar :=
  match c with
  | call_list_skills _ _ | call_get_skill _ _ | call_create_skill _ _
  | call_update_skill _ _ | call_patch_skill _ _ | call_delete_skill _ _ => SkillsTools
  | call_list_connections _ _ | call_get_connection _ _ | call_create_connection _ _
  | call_update_connection _ _ | call_patch_connection _ _
  | call_delete_connection _ _ => ConnectionsTools
  | call_list_executions _ _ | call_get_execution _ _ | call_get_execution_trace _ _
  | call_get_execution_stats _ _ | call_delete_execution _ _ => ExecutionsTools
  | call_create_api_key _ _ | call_list_api_keys _ | call_delete_api_key _ _ => AuthTools
  end.

(** The path of the collection that the tools of a file work on. *)
Definition collection (g : Registrar) : string :=
  match g with
  | SkillsTools => "/skills"
  | ConnectionsTools => "/connections"
  | ExecutionsTools => "/executions"
  | AuthTools => "/auth/keys"
  end.

(** What follows the collection path in a URL: nothing, a further path
    segment or a query. *)
Definition path_remainder (rest : string) : bool :=
  (rest =? "")%string || starts_with rest "/" || starts_with rest "?".

Lemma path_remainder_query q :
  path_remainder (if truthy_string q then "?" ++ q else "") = true.
Proof. destruct (truthy_string q); reflexivity. Qed.

(** Every tool, whatever its input and whatever the network does, hands
    exactly one call to [fetch]: no retry and no second request.  The URL
    of the call is the configured base URL, then the path of the tool's
    collection, then a remainder that is empty or begins with [/] or [?];
    the remainder holds the caller's id as given, so nothing confines the
    resolved URL to the collection.  The call carries the API key, can be
    cancelled through the controller's signal, and is settled when the
    tool returns. *)
Theorem one_call_per_tool :
  forall config (c : ToolCall) w,
    exists req rest,
      calls (fst (run_tool config c w)) = (calls w ++ [req])%list
      /\ in_flight (fst (run_tool config c w)) = in_flight w
      /\ url req = baseUrl config ++ collection (registered_by c) ++ rest
      /\ path_remainder rest = true
      /\ In ("X-API-Key", apiKey config) (headers req)
      /\ signal req = true.
Proof.
  intros config c w.
  destruct c; simpl run_tool; tool_world; unfold with_query;
    (eexists; eexists; split; [apply request_calls |];
     split; [apply request_in_flight |];
     split; [cbn [outbound url registered_by collection]; reflexivity |];
     split; [first [apply path_remainder_query | reflexivity] |];
     split; [left; reflexivity | reflexivity]).
Qed.

(** A tool that only reads: its name begins with [alfred_list_] or
    [alfred_get_]. *)
Definition read_only (c : ToolCall) : bool :=
  starts_with (tool_name c) "alfred_list_" || starts_with (tool_name c) "alfred_get_".

(** A tool that deletes: its name begins with [alfred_delete_]. *)
Definition deleting (c : ToolCall) : bool :=
  starts_with (tool_name c) "alfred_delete_".

(** The list and get tools never issue anything but a GET without body,
    and the delete tools a DELETE without body. *)
Theorem read_only_tools_get :
  forall config (c : ToolCall) w,
    exists req,
      calls (fst (run_tool config c w)) = (calls w ++ [req])%list
      /\ (read_only c = true -> method req = "GET" /\ body req = None)
      /\ (deleting c = true -> method req = "DELETE" /\ body req = None).
Proof.
  intros config c w.
  destruct c; simpl run_tool; tool_world;
    (eexists; split; [apply request_calls |]);
    split; intros H; try discriminate H; split; reflexivity.
Qed.

Lemma read_only_tools_get_witness :
  (exists req,
      calls (fst (run_tool config0 (call_get_skill "abc" Silent) idle)) = ([] ++ [req])%list
      /\ method req = "GET" /\ body req = None)
  /\ (exists req,
        calls (fst (run_tool config0 (call_delete_connection "abc" Silent) idle))
        = ([] ++ [req])%list
        /\ method req = "DELETE" /\ body req = None).
Proof.
  split.
  - destruct (read_only_tools_get config0 (call_get_skill "abc" Silent) idle)
      as (req & Hcalls & Hread & _).
    exists req. split; [exact Hcalls | apply Hread; reflexivity].
  - destruct (read_only_tools_get config0 (call_delete_connection "abc" Silent) idle)
      as (req & Hcalls & _ & Hdelete).
    exists req. split; [exact Hcalls | apply Hdelete; reflexivity].
Defined.

(** ** Thrown errors at the tool boundary *)

(** A condition on what the network does with the call of a tool. *)
Definition on_network (P : forall T, FetchOutcome T -> Prop) (c : ToolCall) : Prop :=
  match c with
  | call_list_skills _ net => P _ net
  | call_get_skill _ net => P _ net
  | call_create_skill _ net => P _ net
  | call_update_skill _ net => P _ net
  | call_patch_skill _ net => P _ net
  | call_delete_skill _ net => P _ net
  | call_list_connections _ net => P _ net
  | call_get_connection _ net => P _ net
  | call_create_connection _ net => P _ net
  | call_update_connection _ net => P _ net
  | call_patch_connection _ net => P _ net
  | call_delete_connection _ net => P _ net
  | call_list_executions _ net => P _ net
  | call_get_execution _ net => P _ net
  | call_get_execution_trace _ net => P _ net
  | call_get_execution_stats _ net => P _ net
  | call_delete_execution _ net => P _ net
  | call_create_api_key _ net => P _ net
  | call_list_api_keys net => P _ net
  | call_delete_api_key _ net => P _ net
  end.

(** Under [net], the client's [request] throws [e], whatever it is asked. *)
Definition request_throws (config : AlfredClientConfig) (e : JsError)
    (T : Type) (net : FetchOutcome T) : Prop :=
  forall method path body w, snd (request config net method path body w) = Throw e.

Lemma quote_body_app a b : quote_body (a ++ b) = quote_body a ++ quote_body b.
Proof.
  induction a as [| c a IH]; simpl; [reflexivity |].
  now rewrite IH, append_assoc.
Qed.

Lemma caught_failure_includes what e :
  includes (result_text (text_result
              (JSON_stringify (failure_payload (what ++ ": " ++ emessage e)))))
           (quote_body (emessage e)).
Proof.
  unfold result_text, text_result. cbn [content text].
  rewrite failure_payload_text, !quote_body_app.
  apply includes_after, includes_before, includes_after, includes_after, includes_refl.
Qed.

Lemma auth_caught_includes what e :
  includes (result_text (error_result (JSON_stringify_2 (JObj (object
              [("error", Some (JStr what)); ("details", Some (JStr (emessage e)))])))))
           (quote_body (emessage e)).
Proof.
  unfold result_text, error_result. cbn [content text].
  exists ("{" ++ nl ++ "  " ++ quote "error" ++ ": " ++ quote what ++ "," ++ nl
          ++ "  " ++ quote "details" ++ ": " ++ dquote).
  unfold JSON_stringify_2, quote, dquote, nl. simpl. eexists.
  repeat (rewrite append_assoc; simpl). reflexivity.
Qed.

Lemma caught_text_includes what e :
  includes (result_text (text_result (what ++ ": " ++ emessage e))) (emessage e).
Proof.
  unfold result_text, text_result. cbn [content text].
  apply includes_after, includes_after, includes_refl.
Qed.

Ltac unfold_tools :=
  unfold alfred_list_skills, alfred_get_skill, alfred_create_skill, alfred_update_skill,
    alfred_patch_skill, alfred_delete_skill, alfred_list_connections,
    alfred_get_connection, alfred_create_connection, alfred_update_connection,
    alfred_patch_connection, alfred_delete_connection, alfred_list_executions,
    alfred_get_execution, alfred_get_execution_trace, alfred_get_execution_stats,
    alfred_delete_execution, alfred_create_api_key, alfred_list_api_keys,
    alfred_delete_api_key,
    listSkills, getSkill, createSkill, updateSkill, patchSkill, deleteSkill,
    listConnections, getConnection, createConnection, updateConnection,
    patchConnection, deleteConnection, listExecutions, getExecution,
    getExecutionTrace, getExecutionStats, deleteExecution,
    createApiKey, listApiKeys, deleteApiKey.

(** When the client throws, the handler's result is what its [catch]
    returns. *)
Lemma handler_catches {A B} (c : M A) (k : A -> M B) (h : JsError -> M B) e w :
  snd (c w) = Throw e ->
  snd (try_catch (bind c k) h w) = snd (h e (fst (c w))).
Proof.
  intros H. unfold try_catch, bind. destruct (c w) as [w' res]. simpl in *. subst res.
  reflexivity.
Qed.

(** Whatever makes the client throw (a failed connection, a non-2xx
    status, a body that is not JSON, the deadline), every tool returns the
    result that the [catch] of its file builds from the message of the
    thrown error.  The skills and connections tools return the JSON text
    of [{ error: "Failed to ...: <message>", success: false }]; the
    executions tools return the plain text [Failed to ...: <message>]; the
    auth tools return the indented JSON text of
    [{ error: "Failed to ...", details: <message> }], flagged
    [isError: true].  So the message is in the text as a JSON string in
    the three files that answer in JSON, and verbatim in the executions
    tools. *)
Theorem thrown_error_surfaces :
  forall config (c : ToolCall) e w,
    on_network (request_throws config e) c ->
    exists what r,
      snd (run_tool config c w) = Return r
      /\ r = match registered_by c with
             | SkillsTools | ConnectionsTools =>
                 text_result (JSON_stringify (JObj
                   [("error", JStr (what ++ ": " ++ emessage e));
                    ("success", JBool false)]))
             | ExecutionsTools => text_result (what ++ ": " ++ emessage e)
             | AuthTools =>
                 error_result (JSON_stringify_2 (JObj
                   [("error", JStr what); ("details", JStr (emessage e))]))
             end
      /\ starts_with what "Failed to " = true
      /\ match registered_by c with
         | ExecutionsTools => includes (result_text r) (emessage e)
         | _ => includes (result_text r) (quote_body (emessage e))
         end.
Proof.
  intros config c e w H.
  destruct c; simpl in H; simpl run_tool; unfold_tools;
    rewrite (handler_catches _ _ _ w (H _ _ _ w));
    eexists; eexists; (split; [reflexivity |]);
    cbn [registered_by]; (split; [reflexivity |]); (split; [reflexivity |]);
    first [ apply caught_failure_includes
          | apply auth_caught_includes
          | apply caught_text_includes ].
Qed.

Lemma thrown_error_surfaces_witness :
  exists what r,
    snd (run_tool config0 (call_get_execution "e1" (Fails connection_refused)) idle) = Return r
    /\ r = text_result (what ++ ": " ++ emessage connection_refused)
    /\ starts_with what "Failed to " = true
    /\ includes (result_text r) (emessage connection_refused).
Proof.
  apply (thrown_error_surfaces config0 (call_get_execution "e1" (Fails connection_refused))
           connection_refused idle).
  intros method path body w. reflexivity.
Defined.

(** *** The deadline, at every tool *)

(** A byte that [JSON.stringify] writes as it is. *)
Definition plain_char (c : ascii) : bool :=
  let n := nat_of_ascii c in
  ((32 <=? n) && negb (n =? 34) && negb (n =? 92))%nat.

(** A string without a byte that [JSON.stringify] escapes. *)
Fixpoint unescaped (s : string) : bool :=
  match s with
  | EmptyString => true
  | String c rest => plain_char c && unescaped rest
  end.

Lemma quote_char_plain c : plain_char c = true -> quote_char c = String c "".
Proof.
  destruct c as [[] [] [] [] [] [] [] []]; intros H; try discriminate H; reflexivity.
Qed.

Lemma quote_body_unescaped s : unescaped s = true -> quote_body s = s.
Proof.
  induction s as [| c s IH]; simpl; intros H; [reflexivity |].
  apply andb_true_iff in H as [Hc Hs].
  now rewrite (quote_char_plain _ Hc), (IH Hs).
Qed.

Lemma unescaped_app a b : unescaped (a ++ b) = unescaped a && unescaped b.
Proof.
  induction a as [| c a IH]; simpl; [reflexivity |].
  rewrite IH. now rewrite andb_assoc.
Qed.

Lemma unescaped_String_number n : unescaped (String_number n) = true.
Proof.
  unfold String_number.
  assert (Hu : forall d, unescaped (NilEmpty.string_of_uint d) = true).
  { induction d; simpl; auto. }
  destruct (Z.to_int n); simpl; auto.
Qed.

Lemma timeout_message_unescaped config :
  quote_body (emessage (timeout_error config)) = emessage (timeout_error config).
Proof.
  apply quote_body_unescaped. unfold timeout_error, Error. cbn [emessage].
  rewrite !unescaped_app, unescaped_String_number. reflexivity.
Qed.

Lemma timeout_in_caught_failure what config :
  includes (result_text (text_result
              (JSON_stringify (failure_payload
                 (what ++ ": " ++ emessage (timeout_error config))))))
           ("Request timeout after " ++ String_number (timeout config) ++ "ms").
Proof.
  pose proof (caught_failure_includes what (timeout_error config)) as H.
  now rewrite timeout_message_unescaped in H.
Qed.

Lemma timeout_in_auth_caught what config :
  includes (result_text (error_result (JSON_stringify_2 (JObj (object
              [("error", Some (JStr what));
               ("details", Some (JStr (emessage (timeout_error config))))])))))
           ("Request timeout after " ++ String_number (timeout config) ++ "ms").
Proof.
  pose proof (auth_caught_includes what (timeout_error config)) as H.
  now rewrite timeout_message_unescaped in H.
Qed.

Lemma timeout_in_caught_text what config :
  includes (result_text (text_result (what ++ ": " ++ emessage (timeout_error config))))
           ("Request timeout after " ++ String_number (timeout config) ++ "ms").
Proof. apply (caught_text_includes what (timeout_error config)). Qed.

(** When no response arrives before the deadline, every tool returns a
    result whose text names the configured duration:
    [Request timeout after <t>ms]. *)
Theorem timeout_reported_by_every_tool :
  forall config (c : ToolCall) w,
    on_network (fun T net => net = Silent) c ->
    exists r,
      snd (run_tool config c w) = Return r
      /\ includes (result_text r)
           ("Request timeout after " ++ String_number (timeout config) ++ "ms").
Proof.
  intros config c w H.
  assert (Hsilent : forall T method path body,
             snd (request (T:=T) config Silent method path body w)
             = Throw (timeout_error config)).
  { intros. rewrite request_Silent. reflexivity. }
  destruct c; simpl in H; subst; simpl run_tool;
    unfold alfred_list_skills, alfred_get_skill, alfred_create_skill, alfred_update_skill,
      alfred_patch_skill, alfred_delete_skill, alfred_list_connections,
      alfred_get_connection, alfred_create_connection, alfred_update_connection,
      alfred_patch_connection, alfred_delete_connection, alfred_list_executions,
      alfred_get_execution, alfred_get_execution_trace, alfred_get_execution_stats,
      alfred_delete_execution, alfred_create_api_key, alfred_list_api_keys,
      alfred_delete_api_key,
      listSkills, getSkill, createSkill, updateSkill, patchSkill, deleteSkill,
      listConnections, getConnection, createConnection, updateConnection,
      patchConnection, deleteConnection, listExecutions, getExecution,
      getExecutionTrace, getExecutionStats, deleteExecution,
      createApiKey, listApiKeys, deleteApiKey;
    rewrite (handler_catches _ _ _ w (Hsilent _ _ _ _));
    eexists; (split; [reflexivity |]);
    first [ apply timeout_in_caught_failure
          | apply timeout_in_auth_caught
          | apply timeout_in_caught_text ].
Qed.

Lemma timeout_reported_by_every_tool_witness :
  exists r,
    snd (run_tool config0 (call_list_api_keys Silent) idle) = Return r
    /\ includes (result_text r)
         ("Request timeout after " ++ String_number (timeout config0) ++ "ms").
Proof.
  apply (timeout_reported_by_every_tool config0 (call_list_api_keys Silent) idle).
  reflexivity.
Defined.

(** ** Which results are flagged as errors *)

(** The tools of [tools/auth.ts]. *)
Definition auth_tool (c : ToolCall) : bool :=
  existsb (String.eqb (tool_name c))
    ["alfred_create_api_key"; "alfred_list_api_keys"; "alfred_delete_api_key"].

(** The body of a handler ends in a result that [solve_result] shows to
    have the property at hand. *)
Ltac handler_body_with solve_result :=
  apply ends_bind with (Q := fun _ => True);
  [ apply ends_request
  | intros ? _;
    repeat match goal with
           | |- ends _ (if ?b then _ else _) => destruct b
           | |- ends _ (match ?x with _ => _ end) => destruct x
           | |- ends _ (ret _) => apply ends_ret; solve_result
           | |- ends _ (throw _) => apply ends_throw
           | |- ends _ (bind (data_of _ _) _) =>
               apply ends_bind with (Q := fun _ => True);
               [ apply ends_data_of; intros; exact I | intros ? _ ]
           end ].

Lemma unflagged_outside_auth config (c : ToolCall) :
  auth_tool c = false -> returns (fun r => isError r = None) (run_tool config c).
Proof.
  intros Hc.
  destruct c; try discriminate Hc; simpl run_tool; unfold_tools;
    (apply returns_try_catch;
     [ handler_body_with reflexivity
     | intros e; apply returns_ret; reflexivity ]).
Qed.

(** Under [net], the client's [request] returns [envelope], whatever it
    is asked. *)
Definition request_returns (config : AlfredClientConfig) (T : Type)
    (net : FetchOutcome T) (envelope : AlfredApiResponse T) : Prop :=
  forall method path body w, snd (request config net method path body w) = Return envelope.

(** Whatever the network does, [request] throws or returns an envelope,
    and which of the two does not depend on what it is asked. *)
Lemma request_settles {T} config (net : FetchOutcome T) :
  (exists e, request_throws config e net)
  \/ (exists envelope, request_returns config net envelope).
Proof.
  assert (Hresponds : forall r : Response T,
             (exists e, request_throws config e (Responds r))
             \/ (exists envelope, request_returns config (Responds r) envelope)).
  { intros r. destruct (json_body r) as [why | envelope] eqn:Hjson.
    - left. eexists. intros method path body w.
      rewrite request_Responds. unfold response_result. rewrite Hjson. reflexivity.
    - destruct (ok r) eqn:Hok.
      + right. exists envelope. intros method path body w.
        rewrite request_Responds. unfold response_result. rewrite Hjson, Hok. reflexivity.
      + left. eexists. intros method path body w.
        rewrite request_Responds. unfold response_result. rewrite Hjson, Hok. reflexivity. }
  assert (Hfails : forall e0, exists e, request_throws (T:=T) config e (Fails e0)).
  { intros e0. eexists. intros method path body w. rewrite request_Fails. reflexivity. }
  assert (Hsilent : exists e, request_throws (T:=T) config e Silent).
  { eexists. intros method path body w. rewrite request_Silent. reflexivity. }
  destruct net as [r | e0 | | ms r | ms e0].
  - apply Hresponds.
  - left. apply Hfails.
  - left. apply Hsilent.
  - destruct (ms <=? timer_delay (timeout config)) eqn:Hms.
    + destruct (Hresponds r) as [[e He] | [envelope He]]; [left; exists e | right; exists envelope];
        intros method path body w; rewrite request_RespondsAfter, Hms; apply He.
    + left. destruct Hsilent as [e He]. exists e.
      intros method path body w. rewrite request_RespondsAfter, Hms. apply He.
  - left. destruct (ms <=? timer_delay (timeout config)) eqn:Hms.
    + destruct (Hfails e0) as [e He]. exists e.
      intros method path body w. rewrite request_FailsAfter, Hms. apply He.
    + destruct Hsilent as [e He]. exists e.
      intros method path body w. rewrite request_FailsAfter, Hms. apply He.
Qed.

Lemma throws_or_returns {T} config (net : FetchOutcome T) e envelope :
  request_throws config e net -> request_returns config net envelope -> False.
Proof.
  intros Ht Hr. specialize (Ht "GET" "" None idle). specialize (Hr "GET" "" None idle).
  rewrite Hr in Ht. discriminate Ht.
Qed.

Lemma request_returns_one {T} config (net : FetchOutcome T) a b :
  request_returns config net a -> request_returns config net b -> a = b.
Proof.
  intros Ha Hb. specialize (Ha "GET" "" None idle). specialize (Hb "GET" "" None idle).
  rewrite Hb in Ha. now injection Ha.
Qed.

(** When the client returns, the handler goes on with the envelope. *)
Lemma handler_goes_on {A B} (c : M A) (k : A -> M B) (h : JsError -> M B) a w :
  snd (c w) = Return a ->
  snd (try_catch (bind c k) h w) = snd (try_catch (k a) h (fst (c w))).
Proof.
  intros H. unfold try_catch, bind. destruct (c w) as [w' res]. simpl in *. subst res.
  reflexivity.
Qed.

(** The [catch] of an auth tool is reached: the client throws, or
    [alfred_delete_api_key] reads the deleted key of a success envelope
    that carries no [data]. *)
Definition auth_catch_reached (config : AlfredClientConfig) (c : ToolCall) : Prop :=
  (exists e, on_network (request_throws config e) c)
  \/ (exists id net envelope,
        c = call_delete_api_key id net
        /\ request_returns config net envelope
        /\ success envelope = true /\ data envelope = None).

(** [isError] is set by the [catch] of the auth tools and by nothing else.
    Every tool returns a result, whatever its input and whatever the
    network does; the flag of that result is either absent or [true]; and
    it is [true] exactly when the tool is an auth tool whose [catch] is
    reached.  So the skills, connections and executions tools never flag a
    result, not even when the client throws, and an auth tool flags
    neither a failure envelope, with or without an error string, nor a
    success, the empty listing included. *)
Theorem isError_only_in_auth_catch :
  forall config (c : ToolCall) w,
    exists r,
      snd (run_tool config c w) = Return r
      /\ (isError r = None \/ isError r = Some true)
      /\ (isError r = Some true <-> auth_tool c = true /\ auth_catch_reached config c).
Proof.
  intros config c w.
  destruct (auth_tool c) eqn:Hc.
  - destruct c; try discriminate Hc; simpl run_tool; unfold_tools.
    + (* alfred_create_api_key *)
      destruct (request_settles config net) as [[e He] | [envelope He]].
      * rewrite (handler_catches _ _ _ w (He _ _ _ w)).
        eexists. split; [reflexivity |]. split; [right; reflexivity |].
        split; [intros _; split; [reflexivity | left; exists e; exact He] | reflexivity].
      * rewrite (handler_goes_on _ _ _ w (He _ _ _ w)).
        assert (Hnot : ~ auth_catch_reached config (call_create_api_key params net)).
        { intros [[e Hthrows] | (id & net' & envelope' & Heq & _)];
            [exact (throws_or_returns Hthrows He) | discriminate Heq]. }
        unfold try_catch.
        destruct (success envelope); destruct (data envelope);
          (eexists; split; [reflexivity |]; split; [left; reflexivity |];
           split; [intros H; discriminate H | intros [_ H]; destruct (Hnot H)]).
    + (* alfred_list_api_keys *)
      destruct (request_settles config net) as [[e He] | [envelope He]].
      * rewrite (handler_catches _ _ _ w (He _ _ _ w)).
        eexists. split; [reflexivity |]. split; [right; reflexivity |].
        split; [intros _; split; [reflexivity | left; exists e; exact He] | reflexivity].
      * rewrite (handler_goes_on _ _ _ w (He _ _ _ w)).
        assert (Hnot : ~ auth_catch_reached config (call_list_api_keys net)).
        { intros [[e Hthrows] | (id & net' & envelope' & Heq & _)];
            [exact (throws_or_returns Hthrows He) | discriminate Heq]. }
        unfold try_catch.
        destruct (success envelope); destruct (data envelope) as [apiKeys |];
          try destruct (List.length apiKeys =? 0)%nat;
          (eexists; split; [reflexivity |]; split; [left; reflexivity |];
           split; [intros H; discriminate H | intros [_ H]; destruct (Hnot H)]).
    + (* alfred_delete_api_key *)
      destruct (request_settles config net) as [[e He] | [envelope He]].
      * rewrite (handler_catches _ _ _ w (He _ _ _ w)).
        eexists. split; [reflexivity |]. split; [right; reflexivity |].
        split; [intros _; split; [reflexivity | left; exists e; exact He] | reflexivity].
      * rewrite (handler_goes_on _ _ _ w (He _ _ _ w)).
        unfold try_catch, bind, data_of.
        destruct (success envelope) eqn:Hs; destruct (data envelope) as [deletedKey |] eqn:Hd;
          cbn -[String.append].
        -- eexists. split; [reflexivity |]. split; [left; reflexivity |].
           split; [intros H; discriminate H |].
           intros [_ [[e Hthrows] | (id' & net' & envelope' & Heq & Hr & _ & Hnone)]].
           ++ destruct (throws_or_returns Hthrows He).
           ++ injection Heq as _ <-. rewrite (request_returns_one Hr He) in Hnone.
              rewrite Hd in Hnone. discriminate Hnone.
        -- eexists. split; [reflexivity |]. split; [right; reflexivity |].
           split; [| reflexivity].
           intros _. split; [reflexivity |]. right. exists id, net, envelope.
           repeat split; assumption.
        -- eexists. split; [reflexivity |]. split; [left; reflexivity |].
           split; [intros H; discriminate H |].
           intros [_ [[e Hthrows] | (id' & net' & envelope' & Heq & Hr & Htrue & _)]].
           ++ destruct (throws_or_returns Hthrows He).
           ++ injection Heq as _ <-. rewrite (request_returns_one Hr He) in Htrue.
              rewrite Hs in Htrue. discriminate Htrue.
        -- eexists. split; [reflexivity |]. split; [left; reflexivity |].
           split; [intros H; discriminate H |].
           intros [_ [[e Hthrows] | (id' & net' & envelope' & Heq & Hr & Htrue & _)]].
           ++ destruct (throws_or_returns Hthrows He).
           ++ injection Heq as _ <-. rewrite (request_returns_one Hr He) in Htrue.
              rewrite Hs in Htrue. discriminate Htrue.
  - destruct (unflagged_outside_auth config c Hc w) as (r & Hr & Hflag).
    exists r. split; [exact Hr |]. split; [left; exact Hflag |].
    rewrite Hflag. split; [intros H; discriminate H | intros [H _]; discriminate H].
Qed.

(** ** The failure branch of every tool *)





(** ** Deleting a skill *)

(** [alfred_delete_skill] appends [?force=true] to the skill's URL exactly
    when [force] is [true]; [force: false] and no [force] behave alike. *)
Theorem force_flag_only_when_true :
  forall config net skillId force w,
    calls (fst (alfred_delete_skill config net (DeleteSkillInput.mk skillId force) w))
    = (calls w ++ [outbound config "DELETE"
                     ("/skills/" ++ skillId
                        ++ match force with Some true => "?force=true" | _ => "" end)
                     None])%list
    /\ alfred_delete_skill config net (DeleteSkillInput.mk skillId (Some false)) w
       = alfred_delete_skill config net (DeleteSkillInput.mk skillId None) w.
Proof.
  intros config net skillId force w. split; [| reflexivity].
  unfold alfred_delete_skill. rewrite world_after_handler by pure_steps.
  unfold deleteSkill. cbn [DeleteSkillInput.skillId DeleteSkillInput.force].
  rewrite request_calls. reflexivity.
Qed.

(** The skill id is put into the URL as it is, with no escaping: deleting
    the id [<id>?force=true] without [force] is the same call, with the
    same result, as deleting [<id>] with [force: true]. *)
Theorem skill_id_not_escaped :
  forall config net skillId w,
    alfred_delete_skill config net
      (DeleteSkillInput.mk (skillId ++ "?force=true") None) w
    = alfred_delete_skill config net (DeleteSkillInput.mk skillId (Some true)) w.
Proof.
  intros config net skillId w.
  unfold alfred_delete_skill, deleteSkill.
  cbn [DeleteSkillInput.skillId DeleteSkillInput.force].
  replace ("/skills/" ++ (skillId ++ "?force=true") ++ "")
    with ("/skills/" ++ skillId ++ "?force=true"); [reflexivity |].
  f_equal. rewrite append_assoc. reflexivity.
Qed.

(** ** Update and patch payloads *)

(** A patch that names no field is still sent: the tool makes its PATCH
    call with the empty object as body. *)
Theorem empty_patch_still_sent :
  forall config w,
    (forall net skillId,
        calls (fst (alfred_patch_skill config net
                      (PatchSkillInput.mk skillId None None None None None None) w))
        = (calls w ++ [mkRequest (baseUrl config ++ "/skills/" ++ skillId) "PATCH"
                         [("X-API-Key", apiKey config); ("Content-Type", "application/json")]
                         (Some "{}") true])%list)
    /\ (forall net connectionId,
          calls (fst (alfred_patch_connection config net
                        (PatchConnectionInput.mk connectionId None None None None) w))
          = (calls w ++ [mkRequest (baseUrl config ++ "/connections/" ++ connectionId) "PATCH"
                           [("X-API-Key", apiKey config); ("Content-Type", "application/json")]
                           (Some "{}") true])%list).
Proof.
  intros config w. split; intros net id.
  - rewrite patch_skill_calls. reflexivity.
  - rewrite patch_connection_calls. reflexivity.
Qed.

Lemma create_skill_calls config net input w :
  calls (fst (alfred_create_skill config net input w))
  = (calls w ++ [outbound config "POST" "/skills" (Some (skillData input))])%list.
Proof.
  unfold alfred_create_skill, try_catch, bind, createSkill. after_request net.
Qed.

Lemma update_skill_calls config net input w :
  calls (fst (alfred_update_skill config net input w))
  = (calls w ++ [outbound config "PUT" ("/skills/" ++ UpdateSkillInput.skillId input)
                   (Some (skillData (UpdateSkillInput.fields input)))])%list.
Proof.
  unfold alfred_update_skill, try_catch, bind, updateSkill. after_request net.
Qed.

(** [alfred_create_skill] and [alfred_update_skill] send the same object
    for the same fields, the one as the body of its POST to [/skills], the
    other as the body of its PUT to [/skills/<skillId>].  The object has
    [name], [triggerType], [steps], [connectionNames] and [isActive] in
    every case, and [description] exactly when it was given, in this
    order, each with the caller's value.  Leaving [connectionNames] out of
    an update therefore sends the empty list for it, whereas the PATCH of
    [alfred_patch_skill] sends nothing for a [connectionNames] left
    out. *)
Theorem update_sends_full_shape :
  forall config net (input : CreateSkillInput.t) skillId w,
    exists o,
      calls (fst (alfred_create_skill config net input w))
      = (calls w ++ [mkRequest (baseUrl config ++ "/skills") "POST"
                       [("X-API-Key", apiKey config); ("Content-Type", "application/json")]
                       (Some (JSON_stringify (JObj o))) true])%list
      /\ calls (fst (alfred_update_skill config net (UpdateSkillInput.mk skillId input) w))
         = (calls w ++ [mkRequest (baseUrl config ++ "/skills/" ++ skillId) "PUT"
                          [("X-API-Key", apiKey config); ("Content-Type", "application/json")]
                          (Some (JSON_stringify (JObj o))) true])%list
      /\ map fst o
         = ("name" :: match CreateSkillInput.description input with
                      | Some _ => ["description"]
                      | None => []
                      end
            ++ ["triggerType"; "steps"; "connectionNames"; "isActive"])%list
      /\ member "name" o = Some (JStr (CreateSkillInput.name input))
      /\ member "description" o = option_map JStr (CreateSkillInput.description input)
      /\ member "triggerType" o = Some (JStr (CreateSkillInput.triggerType input))
      /\ member "steps" o = Some (json_of_steps (CreateSkillInput.steps input))
      /\ member "connectionNames" o
         = Some (json_of_strings match CreateSkillInput.connectionNames input with
                                 | Some names => names
                                 | None => []
                                 end)
      /\ member "isActive" o = Some (JBool (CreateSkillInput.isActive input))
      /\ forall net' patch,
           PatchSkillInput.connectionNames patch = None ->
           exists p,
             calls (fst (alfred_patch_skill config net' patch w))
             = (calls w ++ [mkRequest
                              (baseUrl config ++ "/skills/" ++ PatchSkillInput.skillId patch)
                              "PATCH"
                              [("X-API-Key", apiKey config);
                               ("Content-Type", "application/json")]
                              (Some (JSON_stringify (JObj p))) true])%list
             /\ member "connectionNames" p = None.
Proof.
  intros config net [name description triggerType steps connectionNames isActive] skillId w.
  exists (object
    [("name", Some (JStr name));
     ("description", option_map JStr description);
     ("triggerType", Some (JStr triggerType));
     ("steps", Some (json_of_steps steps));
     ("connectionNames", Some (json_of_strings (zod_default [] connectionNames)));
     ("isActive", Some (JBool isActive))]).
  split; [rewrite create_skill_calls; reflexivity |].
  split; [rewrite update_skill_calls; reflexivity |].
  cbn [CreateSkillInput.name CreateSkillInput.description CreateSkillInput.triggerType
       CreateSkillInput.steps CreateSkillInput.connectionNames CreateSkillInput.isActive].
  split; [destruct description; reflexivity |].
  split; [destruct description; reflexivity |].
  split; [destruct description; reflexivity |].
  split; [destruct description; reflexivity |].
  split; [destruct description; reflexivity |].
  split; [destruct description; destruct connectionNames; reflexivity |].
  split; [destruct description; reflexivity |].
  intros net' patch Hp. exists (patch_skill_updateFields patch).
  split; [rewrite patch_skill_calls; reflexivity |].
  rewrite patch_skill_updateFields_object.
  rewrite member_object by apply patch_skill_supplied_NoDup.
  simpl. now rewrite Hp.
Qed.

Definition rename_only : CreateSkillInput.t :=
  CreateSkillInput.mk "Daily digest" None "manual"
    [SkillStep.mk 1 "Summarise the inbox" "" [] None] None true.

Lemma update_sends_full_shape_witness :
  exists o p,
    calls (fst (alfred_update_skill config0 Silent (UpdateSkillInput.mk "abc" rename_only) idle))
    = [mkRequest (baseUrl config0 ++ "/skills/abc") "PUT"
         [("X-API-Key", apiKey config0); ("Content-Type", "application/json")]
         (Some (JSON_stringify (JObj o))) true]
    /\ member "connectionNames" o = Some (JArr [])
    /\ calls (fst (alfred_patch_skill config0 Silent
                     (PatchSkillInput.mk "abc" (Some "Daily digest") None None None None None)
                     idle))
       = [mkRequest (baseUrl config0 ++ "/skills/abc") "PATCH"
            [("X-API-Key", apiKey config0); ("Content-Type", "application/json")]
            (Some (JSON_stringify (JObj p))) true]
    /\ member "connectionNames" p = None.
Proof.
  destruct (update_sends_full_shape config0 Silent rename_only "abc" idle)
    as (o & _ & Hput & _ & _ & _ & _ & _ & Hnames & _ & Hpatch).
  destruct (Hpatch Silent
              (PatchSkillInput.mk "abc" (Some "Daily digest") None None None None None)
              eq_refl) as (p & Hcall & Hnone).
  exists o, p. repeat split; assumption.
Defined.

(** ** Responses without data *)

(** A creation that the service reports as failed never shows a key: the
    result of [alfred_create_api_key] for an envelope with
    [success: false] is the same whether or not the envelope carries
    [data]. *)
Theorem failed_creation_shows_no_key :
  forall config params st stText (envelope : AlfredApiResponse CreateApiKeyResponse.t) w,
    success envelope = false ->
    alfred_create_api_key config (Responds (mkResponse st stText (Json envelope))) params w
    = alfred_create_api_key config
        (Responds (mkResponse st stText
           (Json (mkEnvelope false None (error envelope) (message envelope) (meta envelope)))))
        params w.
Proof.
  intros config params st stText [s d err msg mt] w Hs. simpl in Hs. subst s.
  unfold alfred_create_api_key, try_catch, bind, createApiKey.
  rewrite !request_Responds. unfold response_result, ok. simpl.
  destruct ((200 <=? st) && (st <=? 299)); reflexivity.
Qed.

Lemma failed_creation_shows_no_key_witness :
  alfred_create_api_key config0
    (Responds (mkResponse 200 "OK"
       (Json (mkEnvelope false (Some (created_key "1" secret1)) (Some "quota exceeded")
                None None))))
    (CreateApiKeyInput.mk "ci-1" None None) idle
  = alfred_create_api_key config0
      (Responds (mkResponse 200 "OK"
         (Json (mkEnvelope false None (Some "quota exceeded") None None))))
      (CreateApiKeyInput.mk "ci-1" None None) idle.
Proof.
  apply (failed_creation_shows_no_key config0 (CreateApiKeyInput.mk "ci-1" None None)
           200 "OK"
           (mkEnvelope false (Some (created_key "1" secret1)) (Some "quota exceeded")
              None None) idle).
  reflexivity.
Defined.

(** The envelope says [success: true] but carries no [data]. *)
Definition success_without_data {T} (net : FetchOutcome T) : Prop :=
  exists r envelope,
    net = Responds r /\ ok r = true /\ json_body r = Json envelope
    /\ success envelope = true /\ data envelope = None.

(** A success envelope without [data] does not make a tool throw.  The
    executions tools that read the data, and [alfred_delete_api_key],
    report the [TypeError] of the read as a failure text; the two other
    auth tools report their fallback failure. *)
Theorem success_without_data_reported :
  forall config w,
    (forall input net, success_without_data net ->
        snd (alfred_list_executions config net input w)
        = Return (text_result ("Failed to list executions: "
                               ++ emessage (TypeError_undefined "length"))))
    /\ (forall id net, success_without_data net ->
          snd (alfred_get_execution config net id w)
          = Return (text_result ("Failed to get execution: "
                                 ++ emessage (TypeError_undefined "id"))))
    /\ (forall input net, success_without_data net ->
          snd (alfred_get_execution_stats config net input w)
          = Return (text_result ("Failed to get execution stats: "
                                 ++ emessage (TypeError_undefined "overview"))))
    /\ (forall id net, success_without_data net ->
          snd (alfred_delete_execution config net id w)
          = Return (text_result ("Failed to delete execution: "
                                 ++ emessage (TypeError_undefined "id"))))
    /\ (forall id net, success_without_data net ->
          exists t, snd (alfred_delete_api_key config net id w) = Return (error_result t)
                    /\ includes t (emessage (TypeError_undefined "id")))
    /\ (forall params net, success_without_data net ->
          exists r envelope, net = Responds r /\ json_body r = Json envelope
            /\ snd (alfred_create_api_key config net params w)
               = Return (auth_failure envelope "Failed to create API key"))
    /\ (forall net, success_without_data net ->
          exists r envelope, net = Responds r /\ json_body r = Json envelope
            /\ snd (alfred_list_api_keys config net w)
               = Return (auth_failure envelope "Failed to list API keys")).
Proof.
  intros config w.
  repeat split; intros;
    match goal with
    | H : success_without_data _ |- _ =>
        destruct H as (r & envelope & -> & Hok & Hjson & Hs & Hd)
    end;
    unfold_tools; unfold try_catch, bind, data_of;
    rewrite request_Responds; unfold response_result; rewrite Hjson, Hok;
    cbn -[String.append]; rewrite Hs; cbn -[String.append]; rewrite ?Hd;
    cbn -[String.append]; try reflexivity.
  - eexists. split; [reflexivity |].
    apply (auth_caught_includes "Failed to delete API key" (TypeError_undefined "id")).
  - exists r, envelope. repeat split; assumption.
  - exists r, envelope. repeat split; assumption.
Qed.

Definition success_only : Response Execution.t :=
  mkResponse 200 "OK" (Json (mkEnvelope true None None None None)).

Lemma success_without_data_reported_witness :
  snd (alfred_get_execution config0 (Responds success_only) "e1" idle)
  = Return (text_result ("Failed to get execution: "
                         ++ emessage (TypeError_undefined "id")))
  /\ snd (alfred_delete_execution config0 (Responds success_only) "e1" idle)
     = Return (text_result ("Failed to delete execution: "
                            ++ emessage (TypeError_undefined "id"))).
Proof.
  destruct (success_without_data_reported config0 idle) as (_ & Hget & _ & Hdelete & _).
  assert (H : success_without_data (Responds success_only)).
  { exists success_only, (mkEnvelope true None None None None). repeat split. }
  split; [apply Hget | apply Hdelete]; exact H.
Defined.

(** ** Encodings *)

(** Two different lists of parameters never serialize to the same query
    string: a value that contains [&] or [=] cannot pass for a further
    parameter. *)
Theorem query_strings_do_not_collide :
  forall q q' : URLSearchParams, q <> q' -> toString q <> toString q'.
Proof.
  intros q q' Hne Heq. apply Hne.
  rewrite <- (parse_query_toString q), <- (parse_query_toString q'). now rewrite Heq.
Qed.

Lemma query_strings_do_not_collide_witness :
  toString [("sortBy", "name&offset=5")] <> toString [("sortBy", "name"); ("offset", "5")].
Proof.
  apply (@query_strings_do_not_collide
           [("sortBy", "name&offset=5")] [("sortBy", "name"); ("offset", "5")]).
  discriminate.
Defined.

(** A byte that may occur in an encoded name or value: a letter, a digit,
    or one of [*], [-], [.], [_], [+], [%]. *)
Definition urlencoded_char (c : ascii) : bool :=
  urlencoded_safe c || Ascii.eqb c "+" || Ascii.eqb c "%".

Fixpoint forallb_string (p : ascii -> bool) (s : string) : bool :=
  match s with
  | EmptyString => true
  | String c rest => p c && forallb_string p rest
  end.

Lemma forallb_string_app p a b :
  forallb_string p (a ++ b) = forallb_string p a && forallb_string p b.
Proof.
  induction a as [| c a IH]; simpl; [reflexivity |].
  rewrite IH. apply andb_assoc.
Qed.

Lemma urlencode_byte_alphabet c : forallb_string urlencoded_char (urlencode_byte c) = true.
Proof. destruct c as [[] [] [] [] [] [] [] []]; reflexivity. Qed.

(** Whatever the filter values are, their encoding uses only letters,
    digits and [*-._+%]: no space, [&], [=], [#], [?] or [/] reaches the
    query string unescaped, and decoding gives the value back. *)
Theorem urlencode_alphabet :
  forall s, forallb_string urlencoded_char (urlencode s) = true
            /\ urldecode (urlencode s) = s.
Proof.
  intros s. split; [| apply urldecode_urlencode].
  induction s as [| c s IH]; simpl; [reflexivity |].
  now rewrite forallb_string_app, urlencode_byte_alphabet, IH.
Qed.

(** *** JSON strings *)

Definition hex_nibble (c : ascii) : option nat := hex_value c.

(** The reader of a JSON string body: the inverse of the escapes that
    [JSON.stringify] writes. *)
Fixpoint unquote_body (s : string) : string :=
  match s with
  | EmptyString => ""
  | String c rest =>
      if Ascii.eqb c "\" then
        match rest with
        | String x rest' =>
            if Ascii.eqb x "b" then String (ascii_of_nat 8) (unquote_body rest')
            else if Ascii.eqb x "f" then String (ascii_of_nat 12) (unquote_body rest')
            else if Ascii.eqb x "n" then String (ascii_of_nat 10) (unquote_body rest')
            else if Ascii.eqb x "r" then String (ascii_of_nat 13) (unquote_body rest')
            else if Ascii.eqb x "t" then String (ascii_of_nat 9) (unquote_body rest')
            else if Ascii.eqb x "u" then
              match rest' with
              | String a (String b (String h (String l rest''))) =>
                  match hex_nibble h, hex_nibble l with
                  | Some hi, Some lo =>
                      String (ascii_of_nat (16 * hi + lo)) (unquote_body rest'')
                  | _, _ => String x (unquote_body rest')
                  end
              | _ => String x (unquote_body rest')
              end
            else String x (unquote_body rest')
        | EmptyString => String c ""
        end
      else String c (unquote_body rest)
  end.

(** No byte below 32 and no bare double quote. *)
Fixpoint json_string_body (s : string) : bool :=
  match s with
  | EmptyString => true
  | String c rest =>
      if Ascii.eqb c "\" then
        match rest with
        | String _ rest' => json_string_body rest'
        | EmptyString => false
        end
      else (32 <=? nat_of_ascii c)%nat && negb (nat_of_ascii c =? 34)%nat
           && json_string_body rest
  end.

Lemma unquote_quote_char c rest :
  unquote_body (quote_char c ++ rest) = String c (unquote_body rest).
Proof. destruct c as [[] [] [] [] [] [] [] []]; reflexivity. Qed.

Lemma json_string_body_quote_char c rest :
  json_string_body (quote_char c ++ rest) = json_string_body rest.
Proof. destruct c as [[] [] [] [] [] [] [] []]; reflexivity. Qed.

(** The escaping of [JSON.stringify] loses nothing and lets nothing
    through: reading the escaped text back gives the string, and the
    escaped text has no control byte and no double quote outside an
    escape, whatever the string (an error message with quotes or line
    breaks included). *)
Theorem json_string_escaping :
  forall s, unquote_body (quote_body s) = s /\ json_string_body (quote_body s) = true.
Proof.
  intros s. induction s as [| c s [IH1 IH2]]; simpl; [split; reflexivity |].
  rewrite unquote_quote_char, json_string_body_quote_char, IH1, IH2. split; reflexivity.
Qed.

(** ** Pagination of the list tools *)

Lemma or_number_positive n d : 0 < n -> or_number n d = n.
Proof.
  intros H. unfold or_number, truthy_number.
  destruct (Z.eqb_spec n 0); [lia | reflexivity].
Qed.

Lemma or_number_zero n : or_number n 0 = n.
Proof.
  unfold or_number, truthy_number. destruct (Z.eqb_spec n 0); [now subst | reflexivity].
Qed.

Lemma zod_optional_default {A} (check : A -> bool) (d : A) (x : option A) :
  check d = true -> zod_optional check x = true -> check (zod_default d x) = true.
Proof. destruct x; simpl; auto. Qed.

Lemma list_skills_parse_page raw input :
  ListSkillsInput.parse raw = Some input ->
  ListSkillsInput.limit input = zod_default 50 (ListSkillsInput.raw_limit raw)
  /\ ListSkillsInput.offset input = zod_default 0 (ListSkillsInput.raw_offset raw)
  /\ 0 < ListSkillsInput.limit input /\ 0 <= ListSkillsInput.offset input.
Proof.
  unfold ListSkillsInput.parse. intros Hp.
  destruct (_ && _) eqn:E in Hp; [| discriminate]. injection Hp as <-.
  apply andb_true_iff in E as [E _]. apply andb_true_iff in E as [E Hoff].
  apply andb_true_iff in E as [_ Hlim].
  apply (zod_optional_default _ 50 _ eq_refl) in Hlim.
  apply (zod_optional_default _ 0 _ eq_refl) in Hoff.
  cbv beta in Hlim, Hoff. apply Z.ltb_lt in Hlim. apply Z.leb_le in Hoff.
  cbn [ListSkillsInput.limit ListSkillsInput.offset]. repeat split; lia.
Qed.

Lemma list_connections_parse_page raw input :
  ListConnectionsInput.parse raw = Some input ->
  ListConnectionsInput.limit input = zod_default 50 (ListConnectionsInput.raw_limit raw)
  /\ ListConnectionsInput.offset input = zod_default 0 (ListConnectionsInput.raw_offset raw)
  /\ 0 < ListConnectionsInput.limit input /\ 0 <= ListConnectionsInput.offset input.
Proof.
  unfold ListConnectionsInput.parse. intros Hp.
  destruct (_ && _) eqn:E in Hp; [| discriminate]. injection Hp as <-.
  apply andb_true_iff in E as [E _]. apply andb_true_iff in E as [Hlim Hoff].
  apply (zod_optional_default _ 50 _ eq_refl) in Hlim.
  apply (zod_optional_default _ 0 _ eq_refl) in Hoff.
  cbv beta in Hlim, Hoff. apply Z.ltb_lt in Hlim. apply Z.leb_le in Hoff.
  cbn [ListConnectionsInput.limit ListConnectionsInput.offset]. repeat split; lia.
Qed.

Lemma list_executions_parse_page zod_uuid zod_datetime raw input :
  ListExecutionsInput.parse zod_uuid zod_datetime raw = Some input ->
  ListExecutionsInput.limit input = zod_default 50 (ListExecutionsInput.raw_limit raw)
  /\ ListExecutionsInput.offset input = zod_default 0 (ListExecutionsInput.raw_offset raw)
  /\ 1 <= ListExecutionsInput.limit input <= 100 /\ 0 <= ListExecutionsInput.offset input.
Proof.
  unfold ListExecutionsInput.parse. intros Hp.
  destruct (_ && _) eqn:E in Hp; [| discriminate]. injection Hp as <-.
  apply andb_true_iff in E as [E _]. apply andb_true_iff in E as [E Hoff].
  apply andb_true_iff in E as [_ Hlim].
  apply (zod_optional_default _ 50 _ eq_refl) in Hlim.
  apply (zod_optional_default _ 0 _ eq_refl) in Hoff.
  cbv beta in Hlim, Hoff. apply andb_true_iff in Hlim as [Hlo Hhi].
  apply Z.leb_le in Hlo, Hhi, Hoff.
  cbn [ListExecutionsInput.limit ListExecutionsInput.offset]. repeat split; lia.
Qed.

(** The call of a list tool whose query carries [limit] and [offset] with
    the given values, each once. *)
Definition page_call (config : AlfredClientConfig) (path : string)
    (limit offset : Z) (w : World) : Prop :=
  exists q,
    calls w = [mkRequest (baseUrl config ++ path ++ "?" ++ toString q) "GET"
                 [("X-API-Key", apiKey config); ("Content-Type", "application/json")]
                 None true]
    /\ params_named "limit" q = [("limit", String_number limit)]
    /\ params_named "offset" q = [("offset", String_number offset)].

Lemma page_suffix params limit :
  params_named "limit" (build_query params) = [("limit", limit)] ->
  query_suffix params = "?" ++ toString (build_query params).
Proof.
  intros Hl. unfold query_suffix. destruct (build_query params); [discriminate | reflexivity].
Qed.

Ltac page_params :=
  solve [simpl; repeat constructor; simpl; intuition discriminate | simpl; tauto].

(** [alfred_list_skills] and [alfred_list_connections] forward the page
    the caller asked for: with arguments that pass the schema, the one
    call carries the caller's [limit] (50 when left out) and [offset]
    (0 when left out) unchanged; the limit is positive and the offset is
    not negative, so the handler's own [|| 50] and [|| 0] never replace a
    value the caller gave. *)
Theorem list_page_forwarded :
  forall config,
    (forall net raw w res,
        invoke_list_skills config net raw = Some (w, res) ->
        page_call config "/skills"
          (zod_default 50 (ListSkillsInput.raw_limit raw))
          (zod_default 0 (ListSkillsInput.raw_offset raw)) w
        /\ 0 < zod_default 50 (ListSkillsInput.raw_limit raw)
        /\ 0 <= zod_default 0 (ListSkillsInput.raw_offset raw))
    /\ (forall net raw w res,
          invoke_list_connections config net raw = Some (w, res) ->
          page_call config "/connections"
            (zod_default 50 (ListConnectionsInput.raw_limit raw))
            (zod_default 0 (ListConnectionsInput.raw_offset raw)) w
          /\ 0 < zod_default 50 (ListConnectionsInput.raw_limit raw)
          /\ 0 <= zod_default 0 (ListConnectionsInput.raw_offset raw)).
Proof.
  intros config. split.
  - intros net raw w res Hrun. unfold invoke_list_skills, invoke in Hrun.
    destruct (ListSkillsInput.parse raw) as [input |] eqn:Hp; [| discriminate].
    injection Hrun as Hrun_eq.
    destruct (list_skills_parse_page _ Hp) as (Hl & Ho & Hpos & Hnn).
    rewrite <- Hl, <- Ho. split; [| split; assumption].
    assert (Hq : params_named "limit" (build_query (Some (list_skills_params input)))
                 = [("limit", String_number (ListSkillsInput.limit input))]
                 /\ params_named "offset" (build_query (Some (list_skills_params input)))
                    = [("offset", String_number (ListSkillsInput.offset input))]).
    { rewrite build_query_entries. unfold list_skills_params.
      rewrite (or_number_positive _ Hpos), or_number_zero.
      split; [apply (params_named_field "limit" (Some (PNum _)))
             | apply (params_named_field "offset" (Some (PNum _)))]; page_params. }
    exists (build_query (Some (list_skills_params input))).
    split; [| exact Hq].
    replace w with (fst (alfred_list_skills config net input idle)) by (now rewrite Hrun_eq).
    rewrite list_skills_calls, with_query_suffix, (page_suffix _ (proj1 Hq)). reflexivity.
  - intros net raw w res Hrun. unfold invoke_list_connections, invoke in Hrun.
    destruct (ListConnectionsInput.parse raw) as [input |] eqn:Hp; [| discriminate].
    injection Hrun as Hrun_eq.
    destruct (list_connections_parse_page _ Hp) as (Hl & Ho & Hpos & Hnn).
    rewrite <- Hl, <- Ho. split; [| split; assumption].
    assert (Hq : params_named "limit" (build_query (Some (list_connections_params input)))
                 = [("limit", String_number (ListConnectionsInput.limit input))]
                 /\ params_named "offset" (build_query (Some (list_connections_params input)))
                    = [("offset", String_number (ListConnectionsInput.offset input))]).
    { rewrite build_query_entries. unfold list_connections_params.
      rewrite (or_number_positive _ Hpos), or_number_zero.
      split; [apply (params_named_field "limit" (Some (PNum _)))
             | apply (params_named_field "offset" (Some (PNum _)))]; page_params. }
    exists (build_query (Some (list_connections_params input))).
    split; [| exact Hq].
    replace w with (fst (alfred_list_connections config net input idle))
      by (now rewrite Hrun_eq).
    rewrite list_connections_calls, with_query_suffix, (page_suffix _ (proj1 Hq)).
    reflexivity.
Qed.

Definition second_page_of_skills : ListSkillsInput.raw :=
  ListSkillsInput.mkRaw (Some true) None None (Some 10) (Some 10) None None.

Lemma list_page_forwarded_witness :
  page_call config0 "/skills" 10 10
    (fst (alfred_list_skills config0 Silent
            (ListSkillsInput.mk (Some true) None None 10 10 None None) idle)).
Proof.
  apply (proj1 (list_page_forwarded config0) Silent second_page_of_skills _
           (snd (alfred_list_skills config0 Silent
                   (ListSkillsInput.mk (Some true) None None 10 10 None None) idle))).
  reflexivity.
Defined.

(** [alfred_list_executions] never asks for more than 100 executions: with
    arguments that pass the schema, the one call carries the caller's
    [limit] (50 when left out), which lies between 1 and 100, and the
    caller's [offset] (0 when left out), which is not negative. *)
Theorem executions_page_bounded :
  forall zod_uuid zod_datetime config net raw w res,
    invoke_list_executions zod_uuid zod_datetime config net raw = Some (w, res) ->
    page_call config "/executions"
      (zod_default 50 (ListExecutionsInput.raw_limit raw))
      (zod_default 0 (ListExecutionsInput.raw_offset raw)) w
    /\ 1 <= zod_default 50 (ListExecutionsInput.raw_limit raw) <= 100
    /\ 0 <= zod_default 0 (ListExecutionsInput.raw_offset raw).
Proof.
  intros zod_uuid zod_datetime config net raw w res Hrun.
  unfold invoke_list_executions, invoke in Hrun.
  destruct (ListExecutionsInput.parse zod_uuid zod_datetime raw) as [input |] eqn:Hp;
    [| discriminate].
  injection Hrun as Hrun_eq.
  destruct (list_executions_parse_page _ _ _ Hp) as (Hl & Ho & Hbound & Hnn).
  rewrite <- Hl, <- Ho. split; [| split; assumption].
  assert (Hq : params_named "limit" (build_query (Some (list_executions_params input)))
               = [("limit", String_number (ListExecutionsInput.limit input))]
               /\ params_named "offset" (build_query (Some (list_executions_params input)))
                  = [("offset", String_number (ListExecutionsInput.offset input))]).
  { rewrite build_query_entries. unfold list_executions_params.
    split; [apply (params_named_field "limit" (Some (PNum _)))
           | apply (params_named_field "offset" (Some (PNum _)))]; page_params. }
  exists (build_query (Some (list_executions_params input))).
  split; [| exact Hq].
  replace w with (fst (alfred_list_executions config net input idle))
    by (now rewrite Hrun_eq).
  rewrite list_executions_calls, with_query_suffix, (page_suffix _ (proj1 Hq)). reflexivity.
Qed.

Definition last_hundred_failed : ListExecutionsInput.raw :=
  ListExecutionsInput.mkRaw None (Some "failed") None None None (Some 100) None None None.

Lemma executions_page_bounded_witness :
  page_call config0 "/executions" 100 0
    (fst (alfred_list_executions config0 Silent
            (ListExecutionsInput.mk None (Some "failed") None None None 100 0 None None) idle))
  /\ ListExecutionsInput.parse (fun _ => true) (fun _ => true)
       (ListExecutionsInput.mkRaw None None None None None (Some 101) None None None) = None.
Proof.
  split; [| reflexivity].
  apply (@executions_page_bounded (fun _ => true) (fun _ => true) config0 Silent
           last_hundred_failed _
           (snd (alfred_list_executions config0 Silent
                   (ListExecutionsInput.mk None (Some "failed") None None None 100 0 None None)
                   idle))).
  reflexivity.
Defined.

(** ** What the executions tools leave out *)

(** An execution reduced to what the listing shows of it. *)
Definition summary_only (e : Execution.t) : Execution.t :=
  Execution.mk (Execution.id e) (Execution.skillId e) (Execution.status e)
    (Execution.trigger e) Undefined Undefined Undefined (Execution.error e)
    (Execution.startedAt e) (Execution.completedAt e) (Execution.durationMs e)
    Undefined Undefined false.

(** An execution without its trace. *)
Definition without_trace (e : Execution.t) : Execution.t :=
  Execution.mk (Execution.id e) (Execution.skillId e) (Execution.status e)
    (Execution.trigger e) (Execution.input e) (Execution.output e) Undefined
    (Execution.error e) (Execution.startedAt e) (Execution.completedAt e)
    (Execution.durationMs e) (Execution.tokenCount e) (Execution.costUsd e)
    (Execution.reportedToCore e).

(** The network behaviour with the data of its envelope changed by [f]. *)
Definition map_data {A B} (f : A -> B) (net : FetchOutcome A) : FetchOutcome B :=
  let changed (r : Response A) :=
    mkResponse (status r) (statusText r)
      match json_body r with
      | Json envelope =>
          Json (mkEnvelope (success envelope) (option_map f (data envelope))
                  (error envelope) (message envelope) (meta envelope))
      | NotJson why => NotJson why
      end in
  match net with
  | Responds r => Responds (changed r)
  | Fails e => Fails e
  | Silent => Silent
  | RespondsAfter ms r => RespondsAfter ms (changed r)
  | FailsAfter ms e => FailsAfter ms e
  end.

Lemma execution_summary_only e : execution_summary (summary_only e) = execution_summary e.
Proof. reflexivity. Qed.

Lemma map_execution_summary_only l :
  map execution_summary (map summary_only l) = map execution_summary l.
Proof. rewrite map_map. apply map_ext. intros e. reflexivity. Qed.

(** The listing of executions shows, of each execution, its id, skill,
    status, trigger, dates, duration and error, and nothing else: the
    result of [alfred_list_executions] does not depend on the input,
    output, trace, token count or cost of the executions.  The result of
    [alfred_get_execution] does not depend on the trace, which only
    [alfred_get_execution_trace] returns. *)
Theorem executions_listing_leaves_out_payloads :
  forall config w,
    (forall net input,
        alfred_list_executions config (map_data (map summary_only) net) input w
        = alfred_list_executions config net input w)
    /\ (forall net executionId,
          alfred_get_execution config (map_data without_trace net) executionId w
          = alfred_get_execution config net executionId w).
Proof.
  intros config w. split.
  - intros net input.
    assert (Hresponse : forall r,
               alfred_list_executions config (map_data (map summary_only) (Responds r)) input w
               = alfred_list_executions config (Responds r) input w).
    { intros r. unfold alfred_list_executions, try_catch, bind, listExecutions, data_of.
      simpl map_data. rewrite !request_Responds. unfold response_result, ok. simpl.
      destruct (json_body r) as [why | [[] [l |] err msg mt]]; simpl; try reflexivity;
        destruct ((200 <=? status r) && (status r <=? 299)); simpl; try reflexivity.
      rewrite length_map, map_execution_summary_only. reflexivity. }
    destruct net as [r | e | | ms r | ms e]; try reflexivity.
    + apply Hresponse.
    + specialize (Hresponse r). revert Hresponse.
      unfold alfred_list_executions, try_catch, bind, listExecutions. simpl map_data.
      rewrite !request_RespondsAfter.
      destruct (ms <=? timer_delay (timeout config)); [intros H; exact H | reflexivity].
  - intros net executionId.
    assert (Hresponse : forall r,
               alfred_get_execution config (map_data without_trace (Responds r)) executionId w
               = alfred_get_execution config (Responds r) executionId w).
    { intros r. unfold alfred_get_execution, try_catch, bind, getExecution, data_of.
      simpl map_data. rewrite !request_Responds. unfold response_result, ok. simpl.
      destruct (json_body r) as [why | [[] [x |] err msg mt]]; simpl; try reflexivity;
        destruct ((200 <=? status r) && (status r <=? 299)); simpl; reflexivity. }
    destruct net as [r | e | | ms r | ms e]; try reflexivity.
    + apply Hresponse.
    + specialize (Hresponse r). revert Hresponse.
      unfold alfred_get_execution, try_catch, bind, getExecution. simpl map_data.
      rewrite !request_RespondsAfter.
      destruct (ms <=? timer_delay (timeout config)); [intros H; exact H | reflexivity].
Qed.

(** ** Confirmation of a deleted key *)

(** A successful [alfred_delete_api_key] names what was deleted: its text
    contains the id, the name and the prefix of the deleted key, and
    depends on nothing that the key object carries besides its declared
    properties. *)
Theorem deleted_key_confirmed :
  forall config (r : Response ApiKey.t) envelope deletedKey id w,
    ok r = true -> json_body r = Json envelope ->
    success envelope = true -> data envelope = Some deletedKey ->
    exists t,
      snd (alfred_delete_api_key config (Responds r) id w) = Return (text_result t)
      /\ includes t ("- ID: " ++ ApiKey.id deletedKey)
      /\ includes t ("- Name: " ++ ApiKey.name deletedKey)
      /\ includes t ("- Key Prefix: " ++ ApiKey.keyPrefix deletedKey)
      /\ t = delete_api_key_text (declared_only deletedKey).
Proof.
  intros config r envelope deletedKey id w Hok Hjson Hs Hd.
  exists (delete_api_key_text deletedKey). split.
  - unfold alfred_delete_api_key, try_catch, bind, deleteApiKey, data_of.
    rewrite request_Responds. unfold response_result. rewrite Hjson, Hok. simpl.
    rewrite Hs, Hd. reflexivity.
  - unfold delete_api_key_text. repeat split.
    + do 5 apply includes_after. eexists "", _. simpl. reflexivity.
    + do 8 apply includes_after. eexists "", _. simpl. reflexivity.
    + do 11 apply includes_after. eexists "", _. simpl. reflexivity.
Qed.

Lemma deleted_key_confirmed_witness :
  exists t,
    snd (alfred_delete_api_key config0
           (Responds (mkResponse 200 "OK"
              (Json (mkEnvelope true (Some (listed_key "1" secret1)) None None None))))
           "key-1" idle) = Return (text_result t)
    /\ includes t ("- ID: " ++ ApiKey.id (listed_key "1" secret1))
    /\ includes t ("- Name: " ++ ApiKey.name (listed_key "1" secret1))
    /\ includes t ("- Key Prefix: " ++ ApiKey.keyPrefix (listed_key "1" secret1))
    /\ t = delete_api_key_text (declared_only (listed_key "1" secret1)).
Proof.
  apply (deleted_key_confirmed config0
           (mkResponse 200 "OK"
              (Json (mkEnvelope true (Some (listed_key "1" secret1)) None None None)))
           (envelope := mkEnvelope true (Some (listed_key "1" secret1)) None None None)
           (deletedKey := listed_key "1" secret1) "key-1" idle); reflexivity.
Defined.
